(** * Verification of the collaborative-doc storage and name servers

    A shallow embedding of the C sources of the storage server
    ([src/storage_server/main.c]) and of the name server
    ([src/name_server/search.c], [cache.c], [client_handler.c],
    [user_manager.c], [storage_manager.c]).

    Conventions of the embedding:
    - a C string is a Rocq [string]; a [char buf[8192]] filled by
      [fread(buf, 1, 8191, f)] holds the first 8191 bytes of the file and
      is read back by [strcpy]/[strtok]/[%s] only up to its first NUL;
    - the data directory of a storage server ([data/ss_<port>/...]) is a
      finite map from relative paths to file contents (an association
      list, last write first);
    - [time(NULL)] is an explicit argument of the operations using it. *)

From Stdlib Require Import String Ascii List Arith Lia ZArith Bool.
Import ListNotations.

Local Open Scope string_scope.
Local Open Scope nat_scope.
Local Open Scope list_scope.

Notation "a +s+ b" := (String.append a b) (at level 60, right associativity).

(* ================================================================= *)
(** ** C strings and buffers *)

Module CStr.

Definition NUL : ascii := "000"%char.

(** A C string stops at its first NUL byte. *)
Fixpoint cstr (s : string) : string :=
  match s with
  | EmptyString => EmptyString
  | String c s' => if Ascii.eqb c NUL then EmptyString else String c (cstr s')
  end.

(** [fread(buf, 1, sizeof(buf) - 1, f)] on a [char buf[8192]]. *)
Definition fread8191 (s : string) : string := substring 0 8191 s.

(** The buffer as later seen by [strcpy], [strtok] or [%s]. *)
Definition read_cstr (s : string) : string := cstr (fread8191 s).

(** [strncpy(dst, src, n - 1)] into a zero-initialised [char dst[n]]. *)
Definition trunc (n : nat) (s : string) : string := substring 0 n s.

Fixpoint last_char (s : string) : option ascii :=
  match s with
  | EmptyString => None
  | String c EmptyString => Some c
  | String _ s' => last_char s'
  end.

(** The string without its last character. *)
Fixpoint drop_last (s : string) : string :=
  match s with
  | EmptyString => EmptyString
  | String _ EmptyString => EmptyString
  | String c s' => String c (drop_last s')
  end.

End CStr.

(* ================================================================= *)
(** ** Sentence-granular write engine (storage server) *)

Module WriteEngine.
Import CStr.

(** [strtok(s, delims)]: the maximal non-empty runs of non-delimiters. *)
Fixpoint strtok_acc (delim : ascii -> bool) (cur : string) (s : string) : list string :=
  match s with
  | EmptyString => if String.eqb cur "" then [] else [cur]
  | String c s' =>
      if delim c
      then (if String.eqb cur "" then strtok_acc delim "" s'
            else cur :: strtok_acc delim "" s')
      else strtok_acc delim (cur +s+ String c EmptyString) s'
  end.

Definition strtok (delim : ascii -> bool) (s : string) : list string :=
  strtok_acc delim "" s.

(** The delimiter set [" \t\n"]. *)
Definition is_ws (c : ascii) : bool :=
  Ascii.eqb c " " || Ascii.eqb c "009"%char || Ascii.eqb c "010"%char.

(** The delimiter set [" \t"] used on the inserted content. *)
Definition is_sp_tab (c : ascii) : bool :=
  Ascii.eqb c " " || Ascii.eqb c "009"%char.

(** [while (token && count < 1024)] into [char words[1024][512]]. Each
    token is copied into a 512-byte row by [strcpy]: the model follows the
    C code where these tokens have at most 511 bytes ([words_fit]); a
    longer one overflows its row, which C leaves undefined. *)
Definition tokenize (content : string) : list string :=
  firstn 1024 (strtok is_ws content).

(** Every word fits a 512-byte row such as [char words[1024][512]]. *)
Definition words_fit (ws : list string) : bool :=
  forallb (fun w => String.length w <=? 511) ws.

Definition is_term (c : ascii) : bool :=
  Ascii.eqb c "." || Ascii.eqb c "!" || Ascii.eqb c "?".

Definition ends_with_term (w : string) : bool :=
  match last_char w with Some c => is_term c | None => false end.

(** [sentence_info_t]: word range of a sentence and its delimiter. *)
Record sentence_info := mk_sentence {
  start_word_idx : nat;
  end_word_idx : nat;
  delimiter : ascii }.

(** The boundary loop: a word whose last character is a terminator ends
    the current sentence, while fewer than 256 sentences are recorded. *)
Fixpoint scan_sentences (ws : list string) (i sent_start : nat)
    (acc : list sentence_info) : list sentence_info * nat :=
  match ws with
  | [] => (acc, sent_start)
  | w :: ws' =>
      match last_char w with
      | Some c =>
          if is_term c && (List.length acc <? 256)
          then scan_sentences ws' (S i) (S i) (acc ++ [mk_sentence sent_start i c])
          else scan_sentences ws' (S i) sent_start acc
      | None => scan_sentences ws' (S i) sent_start acc
      end
  end.

(** Boundaries plus the incomplete trailing sentence, as in the commit. *)
Definition parse_sentences (ws : list string) : list sentence_info :=
  let (acc, st) := scan_sentences ws 0 0 [] in
  if (st <? List.length ws) && (List.length acc <? 256)
  then acc ++ [mk_sentence st (List.length ws - 1) NUL]
  else acc.

(** The insert path adds one more fallback (no sentence but words). *)
Definition parse_sentences_ins (ws : list string) : list sentence_info :=
  let si := parse_sentences ws in
  if (List.length si =? 0) && (0 <? List.length ws)
  then [mk_sentence 0 (List.length ws - 1) NUL]
  else si.

(** The words [start_word_idx .. end_word_idx] of a sentence. *)
Definition sentence_words (ws : list string) (s : sentence_info) : list string :=
  firstn (S (end_word_idx s - start_word_idx s)) (skipn (start_word_idx s) ws).

Definition join (ws : list string) : string := String.concat " " ws.

(** [if (strlen(final_content) > 0) strcat(final_content, " ");]
    followed by the words of one sentence separated by single spaces. *)
Definition add_piece (acc piece : string) : string :=
  if String.eqb acc "" then piece else acc +s+ " " +s+ piece.

(** Step 5 of the ETIRW handler: the merge of the live file ([live],
    [None] when it cannot be opened) with the writer's swap file, as long
    as the C buffers are not overrun ([commit_fits] below). *)
Definition commit_merge (live : option string) (swap : string) (t : nat) : string :=
  let live_raw := match live with Some c => c | None => "" end in
  let cur_bytes := String.length (fread8191 live_raw) in
  let cur := read_cstr live_raw in
  let cw := if 0 <? cur_bytes then tokenize cur else [] in
  let cs := if 0 <? cur_bytes then parse_sentences cw else [] in
  let swap_bytes := String.length (fread8191 swap) in
  let sw_content := read_cstr swap in
  let sw := if 0 <? swap_bytes then tokenize sw_content else [] in
  let ss := if 0 <? swap_bytes then parse_sentences sw else [] in
  if List.length cs =? 0 then sw_content
  else if List.length cs <? t then
    let base := if String.eqb cur "" then cur else cur +s+ " " in
    match rev ss with
    | s :: _ => base +s+ join (sentence_words sw s)
    | [] => base
    end
  else
    let pre := fold_left (fun acc s => add_piece acc (join (sentence_words cw s)))
                 (firstn (t - 1) cs) "" in
    let mid := match nth_error ss (t - 1) with
               | Some s => add_piece pre (join (sentence_words sw s))
               | None => pre
               end in
    fold_left (fun acc s => add_piece acc (join (sentence_words cw s)))
      (skipn t cs) mid.

(** The commit stays within its buffers: the words copied into the
    512-byte rows of [current_words] and [swap_words] have at most 511
    bytes and the merged text fits [final_content[8192]] (the [strcat]s
    only append, so the final length bounds every intermediate one).
    Beyond, a [strcpy] or [strcat] overflows, which C leaves undefined:
    [commit_merge] follows the C code where [commit_fits] holds. *)
Definition commit_fits (live : option string) (swap : string) (t : nat) : bool :=
  let live_raw := match live with Some c => c | None => "" end in
  words_fit (tokenize (read_cstr live_raw)) && words_fit (tokenize (read_cstr swap))
  && (String.length (commit_merge live swap t) <=? 8191).

(** Responses of the insert handler: the new swap content or an error. *)
Inductive insert_result :=
  | Inserted (swap : string)
  | Rejected (msg : string).

(** Step 6 of the insert handler: the terminating punctuation of the
    sentence's last word is removed; a word left empty is dropped. *)
Definition peel (sw : list string) : list string * ascii :=
  match rev sw with
  | [] => ([], NUL)
  | w :: rest =>
      match last_char w with
      | Some c =>
          if is_term c
          then (rev rest ++ (if String.eqb (drop_last w) "" then [] else [drop_last w]), c)
          else (sw, NUL)
      | None => (sw, NUL)
      end
  end.

(** The copy loop: the new words go before the word at 1-based
    position [word_idx]. *)
Fixpoint place (sw : list string) (pos word_idx : nat) (nw : list string) : list string :=
  match sw with
  | [] => []
  | w :: sw' => (if pos =? word_idx then nw else []) ++ w :: place sw' (S pos) word_idx nw
  end.

(** The terminator goes back on the last word written so far, when that
    word is shorter than 511 characters. *)
Definition reattach (ws : list string) (d : ascii) : list string :=
  if Ascii.eqb d NUL then ws
  else match rev ws with
       | [] => []
       | w :: rest =>
           rev rest ++ [if String.length w <? 511 then w +s+ String d EmptyString else w]
       end.

(** An insert line [<word_idx> <new_content>] of a writer holding sentence
    [t] (with [t >= 1] and [word_idx >= 1], both checked before), applied
    to [content_raw], the swap file if it exists and else the live file.
    [new_content] has at most 2047 bytes ([%2047[^\n]]). The C code copies
    words into 512-byte rows ([all_words], [sentence_words[256][512]],
    [new_all_words[1024][512]]) and joins them into [final_content[8192]]
    with [strcat]: the model follows it where every word has at most 511
    bytes, the target sentence at most 256 words, the new word list at
    most 1024 words and the joined text at most 8191 bytes; beyond, C
    overflows a buffer, which it leaves undefined. *)
Definition insert_content (content_raw : string) (t word_idx : nat)
    (new_content : string) : insert_result :=
  let bytes := String.length (fread8191 content_raw) in
  let content := read_cstr content_raw in
  if (bytes =? 0) && (t =? 1) then
    if word_idx =? 1 then Inserted new_content
    else Rejected "ERR_404 Empty file: only word index 1 allowed"
  else
    let ws := tokenize content in
    let si := parse_sentences_ins ws in
    if List.length si <? t then
      if word_idx =? 1
      then Inserted (if 0 <? bytes then trunc 8191 (content +s+ " " +s+ new_content)
                     else new_content)
      else Rejected "ERR_404 New sentence: only word index 1 allowed"
    else
      match nth_error si (t - 1) with
      | None => Rejected "ERR_404 Word index out of range"
      | Some s =>
          let n := end_word_idx s - start_word_idx s + 1 in
          if n + 1 <? word_idx then Rejected "ERR_404 Word index out of range"
          else
            let (sw, d) := peel (sentence_words ws s) in
            let adj := List.length sw in
            if adj + 1 <? word_idx then Rejected "ERR_404 Word index out of range"
            else
              let nw := strtok is_sp_tab new_content in
              let body := place sw 1 word_idx nw ++ (if adj <? word_idx then nw else []) in
              let upto := reattach (firstn (start_word_idx s) ws ++ body) d in
              Inserted (join (upto ++ skipn (S (end_word_idx s)) ws))
      end.

(** The spec's reading of a file, with no capacity: words are separated
    by whitespace; a word ending in '.', '!' or '?' closes a sentence; a
    trailing run of words without a terminator is one more sentence. *)
Fixpoint split_sentences_acc (cur : list string) (ws : list string) : list (list string) :=
  match ws with
  | [] => match cur with [] => [] | _ => [cur] end
  | w :: ws' =>
      if ends_with_term w then (cur ++ [w]) :: split_sentences_acc [] ws'
      else split_sentences_acc (cur ++ [w]) ws'
  end.

Definition spec_words (content : string) : list string := strtok is_ws content.

Definition spec_sentences (content : string) : list (list string) :=
  split_sentences_acc [] (spec_words content).


End WriteEngine.

(* ================================================================= *)
(** ** Numbers as text: [%ld] / [%d] printing and [sscanf] scanning *)

Module Dec.

Definition digit (d : Z) : ascii := ascii_of_nat (48 + Z.to_nat d).

(** Decimal digits of a non-negative number (a [long] has at most 19). *)
Fixpoint digits_aux (fuel : nat) (n : Z) (acc : string) : string :=
  match fuel with
  | O => acc
  | S f =>
      let acc' := String (digit (Z.modulo n 10)) acc in
      if (n <? 10)%Z then acc' else digits_aux f (Z.div n 10) acc'
  end.

(** [printf("%ld", n)]. *)
Definition show_Z (n : Z) : string :=
  if (n <? 0)%Z then "-" +s+ digits_aux 20 (Z.opp n) "" else digits_aux 20 n "".

Definition show_nat (n : nat) : string := show_Z (Z.of_nat n).

(** [isspace]. *)
Definition is_space (c : ascii) : bool :=
  Ascii.eqb c " " || Ascii.eqb c "009"%char || Ascii.eqb c "010"%char
  || Ascii.eqb c "011"%char || Ascii.eqb c "012"%char || Ascii.eqb c "013"%char.

Fixpoint skip_space (s : string) : string :=
  match s with
  | String c s' => if is_space c then skip_space s' else s
  | EmptyString => EmptyString
  end.

Definition is_digit (c : ascii) : bool :=
  (48 <=? nat_of_ascii c) && (nat_of_ascii c <=? 57).

Fixpoint take_digits (s : string) (acc : Z) (seen : bool) : option Z * string :=
  match s with
  | String c s' =>
      if is_digit c
      then take_digits s' (acc * 10 + Z.of_nat (nat_of_ascii c - 48))%Z true
      else (if seen then Some acc else None, s)
  | EmptyString => (if seen then Some acc else None, s)
  end.

(** The [%ld] / [%d] conversion: spaces, an optional sign, digits. *)
Definition scan_int (s : string) : option (Z * string) :=
  let s1 := skip_space s in
  let '(neg, s2) := match s1 with
                    | String "-" s' => (true, s')
                    | String "+" s' => (false, s')
                    | _ => (false, s1)
                    end in
  match take_digits s2 0 false with
  | (Some v, rest) => Some (if neg then Z.opp v else v, rest)
  | (None, _) => None
  end.

(** The [%<w>[^|]] conversion: one to [w] characters other than '|'. *)
Fixpoint scan_not_bar (w : nat) (s : string) : string * string :=
  match w, s with
  | S w', String c s' =>
      if Ascii.eqb c "|" then ("", s)
      else let (a, r) := scan_not_bar w' s' in (String c a, r)
  | _, _ => ("", s)
  end.

(** A literal character of the format. *)
Definition scan_lit (c : ascii) (s : string) : option string :=
  match s with
  | String c' s' => if Ascii.eqb c c' then Some s' else None
  | EmptyString => None
  end.

End Dec.

(* ================================================================= *)
(** ** The storage server's data directory and sentence locks *)

Module Store.
Import CStr.

(** Path -> content; the head binding of a path is the current one. *)
Definition fs := list (string * string).

Fixpoint fs_get (m : fs) (p : string) : option string :=
  match m with
  | [] => None
  | (q, v) :: m' => if String.eqb p q then Some v else fs_get m' p
  end.

Definition fs_del (m : fs) (p : string) : fs :=
  filter (fun e => negb (String.eqb (fst e) p)) m.

(** [fopen(p, "w")] then [fprintf(f, "%s", v)]. *)
Definition fs_set (m : fs) (p v : string) : fs := (p, cstr v) :: fs_del m p.

(** [fopen(p, "a")] then [fprintf(f, <format>, ...)] producing [v]:
    the bytes already in the file are kept as they are. *)
Definition fs_append (m : fs) (p v : string) : fs :=
  (p, match fs_get m p with Some c => c | None => "" end +s+ v) :: fs_del m p.

(** [sentence_lock_t]: (filename, sentence_num, client_fd). *)
Record sentence_lock := mk_lock {
  lk_file : string;
  lk_sentence : nat;
  lk_fd : nat }.

(** The process-wide state the handlers touch. *)
Record ss_state := mk_ss {
  disk : fs;
  locks : list sentence_lock }.

Definition file_path (f : string) : string := "files/" +s+ f.
Definition undo_path (f : string) : string := "undo/" +s+ f +s+ ".undo".
Definition version_path (b : string) : string := "versions/" +s+ b.
Definition swap_path (f : string) (t fd : nat) : string :=
  "files/" +s+ f +s+ "_" +s+ Dec.show_nat t +s+ "_" +s+ Dec.show_nat fd +s+ ".swap".
Definition checkpoint_path (f tag : string) : string :=
  "checkpoints/" +s+ f +s+ "_" +s+ tag +s+ ".checkpoint".
Definition checkpoint_meta_path (f : string) : string :=
  "checkpoint_meta/" +s+ f +s+ ".meta".

(** [is_sentence_locked]: held by another connection. *)
Definition is_sentence_locked (ls : list sentence_lock) (f : string) (n fd : nat) : bool :=
  existsb (fun l => String.eqb (lk_file l) f && (lk_sentence l =? n) && negb (lk_fd l =? fd)) ls.

(** [add_sentence_lock] pushes at the head of the list. *)
Definition add_sentence_lock (ls : list sentence_lock) (f : string) (n fd : nat) :=
  mk_lock f n fd :: ls.

(** [remove_sentence_lock]: the first matching entry. *)
Fixpoint remove_sentence_lock (ls : list sentence_lock) (f : string) (n fd : nat) :=
  match ls with
  | [] => []
  | l :: ls' =>
      if String.eqb (lk_file l) f && (lk_sentence l =? n) && (lk_fd l =? fd)
      then ls' else l :: remove_sentence_lock ls' f n fd
  end.

(** [remove_client_locks]: every entry of the connection. *)
Definition remove_client_locks (ls : list sentence_lock) (fd : nat) :=
  filter (fun l => negb (lk_fd l =? fd)) ls.

(** [get_client_write_info]: the first entry of the connection. *)
Definition get_client_write_info (ls : list sentence_lock) (fd : nat) : option (string * nat) :=
  match find (fun l => lk_fd l =? fd) ls with
  | Some l => Some (lk_file l, lk_sentence l)
  | None => None
  end.

Fixpoint has_char (c : ascii) (s : string) : bool :=
  match s with
  | EmptyString => false
  | String x s' => Ascii.eqb x c || has_char c s'
  end.

(** [fopen(<data directory>/<name>, "w")] creates a file named [name]
    when [name] has at most NAME_MAX = 255 bytes (a longer component
    fails with ENAMETOOLONG, also after [snprintf] has cut the path to
    511 bytes) and holds no '/': the server creates no subdirectory in
    its data directories, and names with '/' are outside this model. *)
Definition creatable (name : string) : bool :=
  (String.length name <=? 255) && negb (has_char "/" name).

(** The lock-table scan of the UNDO, CHECKPOINT and REVERT handlers. *)
Definition file_locked (ls : list sentence_lock) (f : string) : bool :=
  existsb (fun l => String.eqb (lk_file l) f) ls.

End Store.

(* ================================================================= *)
(** ** Undo history: [create_file_backup] and [perform_undo] *)

Module Undo.
Import CStr Store.

(** [backup_entry_t]. *)
Record backup_entry := mk_entry {
  timestamp : Z;
  backup_name : string;
  user : string;
  used : Z }.

(** [create_file_backup(filename, port, username)] at time [now]:
    returns 0 when the live file cannot be opened, -1 when the backup
    [versions/<filename>_<now>.bak] cannot be created, 1 otherwise. When
    the backup can be created, so can the undo log [undo/<filename>.undo]
    (a shorter name, with no '/'), so the append always happens. *)
Definition create_file_backup (m : fs) (f username : string) (now : Z) : Z * fs :=
  match fs_get m (file_path f) with
  | None => (0%Z, m)
  | Some c =>
      let content := read_cstr c in
      let backup_filename := f +s+ "_" +s+ Dec.show_Z now +s+ ".bak" in
      if negb (creatable backup_filename) then ((-1)%Z, m) else
      let m1 := fs_set m (version_path backup_filename) content in
      let line := Dec.show_Z now +s+ "|" +s+ backup_filename +s+ "|" +s+ username
                  +s+ String "010"%char EmptyString in
      (1%Z, fs_append m1 (undo_path f) line)
  end.

(** Successive [fgets(line, 1024, f)]: a line is at most 1023 bytes and
    keeps its newline. [n] is the length of [cur]. *)
Fixpoint fgets_lines (cur : string) (n : nat) (s : string) : list string :=
  match s with
  | EmptyString => if String.eqb cur "" then [] else [cur]
  | String c s' =>
      let cur' := cur +s+ String c EmptyString in
      if Ascii.eqb c "010"%char || (S n =? 1023)
      then cur' :: fgets_lines "" 0 s'
      else fgets_lines cur' (S n) s'
  end.

(** [sscanf(line, "%ld|%255[^|]|%127[^|]|%d", ...) >= 3]; [used] keeps
    its initial value 0 when the fourth conversion fails. *)
Definition parse_undo_line (line : string) : option backup_entry :=
  match Dec.scan_int line with
  | None => None
  | Some (ts, r1) =>
      match Dec.scan_lit "|" r1 with
      | None => None
      | Some r2 =>
          let (name, r3) := Dec.scan_not_bar 255 r2 in
          if String.eqb name "" then None else
          match Dec.scan_lit "|" r3 with
          | None => None
          | Some r4 =>
              let (u, r5) := Dec.scan_not_bar 127 r4 in
              if String.eqb u "" then None else
              let used :=
                match Dec.scan_lit "|" r5 with
                | Some r6 => match Dec.scan_int r6 with Some (v, _) => v | None => 0%Z end
                | None => 0%Z
                end in
              Some (mk_entry ts name u used)
          end
      end
  end.

Fixpoint filter_map_entries (ls : list string) : list backup_entry :=
  match ls with
  | [] => []
  | l :: ls' =>
      match parse_undo_line l with
      | Some e => e :: filter_map_entries ls'
      | None => filter_map_entries ls'
      end
  end.

(** The reading loop: at most 1000 entries. *)
Definition read_undo_log (log : string) : list backup_entry :=
  firstn 1000 (filter_map_entries (fgets_lines "" 0 log)).

Fixpoint set_nth {A} (l : list A) (i : nat) (x : A) : list A :=
  match l, i with
  | [], _ => []
  | _ :: l', O => x :: l'
  | y :: l', S i' => y :: set_nth l' i' x
  end.

(** One comparison of the exchange sort: [backups[i]] and [backups[j]]
    are swapped when [backups[i].timestamp < backups[j].timestamp]. *)
Definition swap_if (a : list backup_entry) (i j : nat) : list backup_entry :=
  match nth_error a i, nth_error a j with
  | Some x, Some y =>
      if (timestamp x <? timestamp y)%Z then set_nth (set_nth a i y) j x else a
  | _, _ => a
  end.

(** [for (j = i + 1; j < count; j++)], [k] iterations left. *)
Fixpoint inner_loop (a : list backup_entry) (i j k : nat) : list backup_entry :=
  match k with
  | O => a
  | S k' => inner_loop (swap_if a i j) i (S j) k'
  end.

(** [for (i = 0; i < count - 1; i++)], [k] iterations left. *)
Fixpoint outer_loop (a : list backup_entry) (n i k : nat) : list backup_entry :=
  match k with
  | O => a
  | S k' => outer_loop (inner_loop a i (S i) (n - S i)) n (S i) k'
  end.

Definition sort_newest_first (a : list backup_entry) : list backup_entry :=
  outer_loop a (List.length a) 0 (List.length a - 1).

(** The first index whose [used] field is 0. *)
Fixpoint first_unused (a : list backup_entry) (i : nat) : option nat :=
  match a with
  | [] => None
  | e :: a' => if (used e =? 0)%Z then Some i else first_unused a' (S i)
  end.

Definition entry_line (e : backup_entry) : string :=
  Dec.show_Z (timestamp e) +s+ "|" +s+ backup_name e +s+ "|" +s+ user e +s+ "|"
  +s+ Dec.show_Z (used e) +s+ String "010"%char EmptyString.

(** [perform_undo(filename, port, username)]: 1 on success, 0 when no
    history is available, -1 when the backup cannot be read. *)
Definition perform_undo (m : fs) (f : string) : Z * fs :=
  match fs_get m (undo_path f) with
  | None => (0%Z, m)
  | Some log =>
      let backups := read_undo_log log in
      if List.length backups =? 0 then (0%Z, m) else
      let sorted := sort_newest_first backups in
      match first_unused sorted 0 with
      | None => (0%Z, m)
      | Some idx =>
          match nth_error sorted idx with
          | None => (0%Z, m)
          | Some target =>
              match fs_get m (version_path (backup_name target)) with
              | None => ((-1)%Z, m)
              | Some b =>
                  let m1 := fs_set m (file_path f) (read_cstr b) in
                  let sorted' := set_nth sorted idx
                                   (mk_entry (timestamp target) (backup_name target)
                                             (user target) 1%Z) in
                  (1%Z, fs_set m1 (undo_path f) (String.concat "" (map entry_line sorted')))
              end
          end
      end
  end.

End Undo.

(* ================================================================= *)
(** ** Direct-client commands of the storage server *)

Module Handler.
Import CStr Store WriteEngine.

(** The ETIRW branch of [client_handler_thread] for connection [fd]
    holding sentence [t] of [f]: backup, merge, write, drop the swap and
    release the lock. A commit without a swap file only releases it. *)
Definition etirw (st : ss_state) (fd : nat) (username : string) (now : Z)
    (f : string) (t : nat) : ss_state * string :=
  let m := disk st in
  let sp := swap_path f t fd in
  let ls' := remove_sentence_lock (locks st) f t fd in
  match fs_get m sp with
  | None => (mk_ss m ls', "OK_200 WRITE COMPLETED")
  | Some swap =>
      let m1 := snd (Undo.create_file_backup m f username now) in
      let merged := commit_merge (fs_get m1 (file_path f)) swap t in
      let m2 := fs_set m1 (file_path f) merged in
      (mk_ss (fs_del m2 sp) ls', "OK_200 WRITE COMPLETED")
  end.

(** An insert line in WRITE mode: read the swap (else the live file),
    apply [insert_content], write the swap; ERR_500 when the swap file
    [<f>_<t>_<fd>.swap] cannot be created. *)
Definition insert_line (st : ss_state) (fd : nat) (f : string) (t word_idx : nat)
    (new_content : string) : ss_state * string :=
  let m := disk st in
  let sp := swap_path f t fd in
  if word_idx =? 0 then (st, "ERR_400 Word index must be positive (1-based)") else
  match (match fs_get m sp with Some c => Some c | None => fs_get m (file_path f) end) with
  | None => (st, "ERR_404 File not found during update")
  | Some c =>
      match insert_content c t word_idx new_content with
      | Inserted sw =>
          if creatable (f +s+ "_" +s+ Dec.show_nat t +s+ "_" +s+ Dec.show_nat fd +s+ ".swap")
          then (mk_ss (fs_set m sp sw) (locks st), "OK_200 CONTENT INSERTED")
          else (st, "ERR_500 Could not create temporary file")
      | Rejected msg => (st, msg)
      end
  end.

(** The UNDO branch of [client_handler_thread]. *)
Definition direct_undo (st : ss_state) (f : string) : ss_state * string :=
  if file_locked (locks st) f
  then (st, "ERR_409 Cannot undo: file is currently being edited")
  else match fs_get (disk st) (file_path f) with
       | None => (st, "ERR_404 File not found")
       | Some _ =>
           let (r, m') := Undo.perform_undo (disk st) f in
           (mk_ss m' (locks st),
             if (r =? 1)%Z then "OK_200 UNDO COMPLETED"
             else if (r =? 0)%Z then "ERR_404 No undo history available for this file"
             else "ERR_500 UNDO operation failed")
       end.

(** The MSG_UNDO case of [handle_ns_commands]: ACK on success, no
    reply otherwise. *)
Definition ns_undo (st : ss_state) (f : string) : ss_state * option string :=
  let (r, m') := Undo.perform_undo (disk st) f in
  (mk_ss m' (locks st), if (r =? 1)%Z then Some "MSG_ACK" else None).

End Handler.

(* ================================================================= *)
(** ** Checkpoints: [create_checkpoint] and the CHECKPOINT command *)

Module Checkpoint.
Import CStr Store.

(** [create_checkpoint(filename, checkpoint_tag, port, username)] at
    time [now]: 1 on success, 0 when the file cannot be opened, -2 when
    [checkpoints/<filename>_<tag>.checkpoint] already exists, -1 when it
    cannot be created. When it can, so can [checkpoint_meta/<filename>.meta]
    (a shorter name, with no '/'), so the meta line is always appended. *)
Definition create_checkpoint (m : fs) (f tag username : string) (now : Z) : Z * fs :=
  match fs_get m (file_path f) with
  | None => (0%Z, m)
  | Some c =>
      let bytes_read := String.length (fread8191 c) in
      let content := read_cstr c in
      match fs_get m (checkpoint_path f tag) with
      | Some _ => ((-2)%Z, m)
      | None =>
          if negb (creatable (f +s+ "_" +s+ tag +s+ ".checkpoint")) then ((-1)%Z, m) else
          let m1 := fs_set m (checkpoint_path f tag) content in
          let line := Dec.show_Z now +s+ "|" +s+ tag +s+ "|" +s+ username +s+ "|"
                      +s+ Dec.show_nat bytes_read +s+ String "010"%char EmptyString in
          (1%Z, fs_append m1 (checkpoint_meta_path f) line)
      end
  end.

(** The CHECKPOINT branch of [client_handler_thread]. *)
Definition checkpoint_cmd (st : ss_state) (f tag username : string) (now : Z)
    : ss_state * string :=
  if file_locked (locks st) f
  then (st, "ERR_409 Cannot create checkpoint: file is currently being edited")
  else match fs_get (disk st) (file_path f) with
       | None => (st, "ERR_404 File not found")
       | Some _ =>
           let (r, m') := create_checkpoint (disk st) f tag username now in
           (mk_ss m' (locks st),
             if (r =? 1)%Z then "OK_200 CHECKPOINT CREATED"
             else if (r =? -2)%Z then "ERR_409 Checkpoint tag already exists"
             else "ERR_500 Failed to create checkpoint")
       end.

End Checkpoint.

(* ================================================================= *)
(** ** VIEWCHECKPOINT and REVERT *)

Module CheckpointOps.
Import CStr Store.





(** [revert_to_checkpoint(filename, tag, port, username)] at time [now]:
    0 when the checkpoint file cannot be opened; otherwise a backup of
    the live file ([create_file_backup], whose result is ignored), then
    the checkpoint's bytes up to the first NUL within 8191 are written to
    the live file and 1 is returned. The [fopen(current, "w")] of the
    model never fails, and the [update_metadata_entry] call writes only
    [metadata/metadata.txt], a path outside this model. *)
Definition revert_to_checkpoint (m : fs) (f tag username : string) (now : Z) : Z * fs :=
  match fs_get m (checkpoint_path f tag) with
  | None => (0%Z, m)
  | Some cp =>
      let content := read_cstr cp in
      let m1 := snd (Undo.create_file_backup m f username now) in
      (1%Z, fs_set m1 (file_path f) content)
  end.

(** The REVERT branch of [client_handler_thread]. *)
Definition revert_cmd (st : ss_state) (f tag username : string) (now : Z)
    : ss_state * string :=
  if file_locked (locks st) f
  then (st, "ERR_409 Cannot revert: file is currently being edited")
  else match fs_get (disk st) (file_path f) with
       | None => (st, "ERR_404 File not found")
       | Some _ =>
           let (r, m') := revert_to_checkpoint (disk st) f tag username now in
           (mk_ss m' (locks st),
             if (r =? 1)%Z then "OK_200 REVERT COMPLETED"
             else if (r =? 0)%Z then "ERR_404 Checkpoint not found"
             else "ERR_500 REVERT operation failed")
       end.

End CheckpointOps.

(* ================================================================= *)
(** ** The line loop of a direct-client connection *)

Module Session.
Import CStr Store WriteEngine Handler.

(** [strncmp(buf, "ETIRW", 5) == 0]. *)
Definition is_etirw (line : string) : bool := String.prefix "ETIRW" line.

(** The [%<w>[^\n]] conversion: one to [w] characters other than '\n'. *)
Fixpoint scan_not_nl (w : nat) (s : string) : string * string :=
  match w, s with
  | S w', String c s' =>
      if Ascii.eqb c "010"%char then ("", s)
      else let (a, r) := scan_not_nl w' s' in (String c a, r)
  | _, _ => ("", s)
  end.

(** The [%s] conversion after its leading white space: the characters
    up to the next white space. *)
Fixpoint scan_word (s : string) : string * string :=
  match s with
  | String c s' =>
      if Dec.is_space c then ("", s)
      else let (a, r) := scan_word s' in (String c a, r)
  | EmptyString => ("", s)
  end.

(** [sscanf(buf, "%d %2047[^\n]", &word_idx, new_content) == 2]. *)
Definition parse_insert (line : string) : option (Z * string) :=
  match Dec.scan_int line with
  | None => None
  | Some (v, r) =>
      let (c, _) := scan_not_nl 2047 (Dec.skip_space r) in
      if String.eqb c "" then None else Some (v, c)
  end.

(** [sscanf(buf, "WRITE %s %d", fname_write, &sentence_num) == 2]. *)
Definition parse_write (line : string) : option (string * Z) :=
  if String.prefix "WRITE" line then
    let (w, r) := scan_word (Dec.skip_space (substring 5 (String.length line - 5) line)) in
    if String.eqb w "" then None else
    match Dec.scan_int r with
    | Some (n, _) => Some (w, n)
    | None => None
    end
  else None.

(** The number of sentences a WRITE may target: the sentences of the
    file plus one when the last one is complete or followed by words.
    The C code copies the words into the 512-byte rows of [words[1024][512]]
    ([get_sentence_info_simple]) and into [last_word[512]]: the model
    follows it where those words have at most 511 bytes ([words_fit]). *)
Definition available_sentences (c : string) : Z :=
  let bytes := String.length (fread8191 c) in
  let content := read_cstr c in
  if bytes =? 0 then 1%Z else
  let ws := tokenize content in
  let si := parse_sentences ws in
  let total := Z.of_nat (List.length si) in
  if (total =? 0)%Z then 2%Z else
  let last_end := end_word_idx (nth (List.length si - 1) si (mk_sentence 0 0 NUL)) in
  let total_words := List.length ws in
  if (Z.of_nat last_end <? Z.of_nat total_words - 1)%Z then (total + 1)%Z
  else if 0 <? total_words then
    let last_word := nth last_end ws "" in
    if 0 <? String.length last_word then
      (if ends_with_term last_word then total + 1 else total)%Z
    else total
  else total.

(** The WRITE branch of the regular command chain. *)
Definition write_cmd (st : ss_state) (fd : nat) (f : string) (n : Z) : ss_state * string :=
  match fs_get (disk st) (file_path f) with
  | None => (st, "ERR_404 File not found")
  | Some c =>
      let avail := available_sentences c in
      if (n <? 1)%Z then (st, "ERR_404 Sentence number must be positive")
      else if (avail <? n)%Z then (st, "ERR_404 Sentence not available")
      else if is_sentence_locked (locks st) f (Z.to_nat n) fd
      then (st, "ERR_409 This sentence is currently being edited by another user")
      else (mk_ss (disk st) (add_sentence_lock (locks st) f (Z.to_nat n) fd),
            "OK_200 WRITE MODE ENABLED")
  end.

(** One line received on connection [fd]. A connection holding a lock
    sees only the commit and insert lines; otherwise a line starting with
    WRITE goes to the WRITE branch ([None]: one of the other commands of
    the regular chain, none of which touches the lock table). *)
Definition line_step (st : ss_state) (fd : nat) (username : string) (now : Z)
    (line : string) : option (ss_state * string) :=
  match get_client_write_info (locks st) fd with
  | Some (f, t) =>
      if is_etirw line then Some (etirw st fd username now f t)
      else match parse_insert line with
           | Some (wi, nc) =>
               if (wi <? 1)%Z
               then Some (st, "ERR_400 Word index must be positive (1-based)")
               else Some (insert_line st fd f t (Z.to_nat wi) nc)
           | None => Some (st, "ERR_400 Invalid format. Use: <word_index> <content>")
           end
  | None =>
      match parse_write line with
      | Some (f, n) => Some (write_cmd st fd f n)
      | None => None
      end
  end.

(** The storage server's transitions as seen by the lock table: a line
    of some connection, any other command of the regular chain or of the
    name server (which may change files but never locks), and the end of
    a connection, which calls [remove_client_locks] before [close]. *)
Inductive ss_step : ss_state -> ss_state -> Prop :=
  | Step_line st fd u now line st' out :
      line_step st fd u now line = Some (st', out) -> ss_step st st'
  | Step_other st fd u now line m' :
      line_step st fd u now line = None -> ss_step st (mk_ss m' (locks st))
  | Step_ns st m' : ss_step st (mk_ss m' (locks st))
  | Step_close st fd : ss_step st (mk_ss (disk st) (remove_client_locks (locks st) fd)).

(** The locks a connection holds. *)
Definition locks_of (ls : list sentence_lock) (fd : nat) : list sentence_lock :=
  filter (fun l => lk_fd l =? fd) ls.

Definition one_lock_per_connection (ls : list sentence_lock) : Prop :=
  forall fd, List.length (locks_of ls fd) <= 1.

End Session.

(* ================================================================= *)
(** ** Name server: the file trie, the folder registry and the cache *)

Module NS.
Import CStr.

(** [int index = (int)filename[i]] with a signed [char]: the bytes
    above 127 are negative, outside [0, TRIE_CHAR_SET_SIZE = 128). *)
Definition valid_char (c : ascii) : bool := nat_of_ascii c <? 128.

Fixpoint filter_chars (p : ascii -> bool) (s : string) : string :=
  match s with
  | EmptyString => EmptyString
  | String c s' => if p c then String c (filter_chars p s') else filter_chars p s'
  end.

Fixpoint all_chars (p : ascii -> bool) (s : string) : bool :=
  match s with
  | EmptyString => true
  | String c s' => p c && all_chars p s'
  end.

(** The trie node reached by [search_add_file] and [find_file_record],
    which skip the invalid characters of the name. *)
Definition trie_key (f : string) : string := filter_chars valid_char (cstr f).

(** [AclEntry]. *)
Record acl_entry := mk_acl {
  acl_user : string;
  acl_perm : Z }.

(** [FileRecord], without the counters and times no claim reads. *)
Record file_record := mk_record {
  r_filename : string;
  r_owner : string;
  r_ss : Z;
  r_folder : string;
  r_acl : list acl_entry }.

(** The trie as the map from a node's path to its [file_info]; nodes
    without a record are not listed. *)
Definition trie := list (string * file_record).

Fixpoint tr_get (t : trie) (k : string) : option file_record :=
  match t with
  | [] => None
  | (k', r) :: t' => if String.eqb k k' then Some r else tr_get t' k
  end.

Definition tr_del (t : trie) (k : string) : trie :=
  filter (fun e => negb (String.eqb (fst e) k)) t.

Definition tr_set (t : trie) (k : string) (r : file_record) : trie := (k, r) :: tr_del t k.

(** [search_add_file]: nothing happens when the node already holds a
    record.  The record is malloc'd and its name and owner are copied by
    [strncpy] of 255 and 63 bytes, which leaves the last byte unset: the
    copies ([trunc]) are C strings only for a name shorter than 255
    bytes and an owner shorter than 63. *)
Definition search_add_file (t : trie) (f : string) (ss : Z) (owner : string) : trie :=
  match tr_get t (trie_key f) with
  | Some _ => t
  | None => tr_set t (trie_key f) (mk_record (trunc 255 f) (trunc 63 owner) ss "" [])
  end.

(** [find_file_record]. *)
Definition find_file_record (t : trie) (f : string) : option file_record :=
  tr_get t (trie_key f).

(** [search_delete_file]: the walk stops with -1 at the first character
    outside [0, 128) or at a missing child; -2 for a user other than the
    owner; on success the record is unlinked and its [ss_index]
    returned. *)
Definition search_delete_file (t : trie) (f u : string) : Z * trie :=
  if all_chars valid_char (cstr f) then
    match tr_get t (cstr f) with
    | None => ((-1)%Z, t)
    | Some r =>
        if String.eqb (r_owner r) u then (r_ss r, tr_del t (cstr f)) else ((-2)%Z, t)
    end
  else ((-1)%Z, t).

(** The first ACL index naming [u]. *)
Fixpoint acl_index (a : list acl_entry) (u : string) (i : nat) : option nat :=
  match a with
  | [] => None
  | e :: a' => if String.eqb (acl_user e) u then Some i else acl_index a' u (S i)
  end.

(** [search_grant_permission]: 0 on success, -1 otherwise.  The new
    ACL entry is written by [strncpy] of 63 bytes into the malloc'd
    record: it is a C string only for a user name shorter than 63
    bytes. *)
Definition search_grant_permission (t : trie) (f owner target : string) (perm : Z)
    : Z * trie :=
  match find_file_record t f with
  | None => ((-1)%Z, t)
  | Some r =>
      if negb (String.eqb (r_owner r) owner) then ((-1)%Z, t) else
      let acl' :=
        match acl_index (r_acl r) target 0 with
        | Some i =>
            Some (Undo.set_nth (r_acl r) i
                    (mk_acl (acl_user (nth i (r_acl r) (mk_acl "" 0))) perm))
        | None =>
            if 10 <=? List.length (r_acl r) then None
            else Some (r_acl r ++ [mk_acl (trunc 63 target) perm])
        end in
      match acl' with
      | None => ((-1)%Z, t)
      | Some a =>
          (0%Z, tr_set t (trie_key f)
                  (mk_record (r_filename r) (r_owner r) (r_ss r) (r_folder r) a))
      end
  end.

(** [SSFileRecordPayload], with its [acl_count] entries as a list. *)
Record file_payload := mk_payload {
  p_filename : string;
  p_owner : string;
  p_acl : list acl_entry;
  p_folder : string }.

(** [search_rebuild_add_file]: a record of another storage server at
    the node is kept; otherwise the payload replaces or creates it.  The
    fields are copied by [strncpy] into a malloc'd record (255 bytes for
    name and folder, 63 for owner and ACL users), so they are C strings
    only below these lengths; the C loop copies [acl_count] entries into
    an array of 10. *)
Definition search_rebuild_add_file (t : trie) (ss : Z) (p : file_payload) : trie :=
  let k := trie_key (p_filename p) in
  let fresh := mk_record (trunc 255 (p_filename p)) (trunc 63 (p_owner p)) ss
                 (if String.eqb (p_folder p) "" then "" else trunc 255 (p_folder p))
                 (map (fun e => mk_acl (trunc 63 (acl_user e)) (acl_perm e)) (p_acl p)) in
  match tr_get t k with
  | Some r => if (r_ss r =? ss)%Z then tr_set t k fresh else t
  | None => tr_set t k fresh
  end.

(** [starts_with(s, prefix)]: an empty prefix, or [strncmp] on the
    prefix's length. *)
Definition starts_with (s prefix : string) : bool :=
  if String.length prefix =? 0 then true else String.prefix prefix s.

(** The new folder of a record under [src] after the move to [dst]. *)
Definition moved_folder (folder src dst : string) : string :=
  if String.length src =? 0 then trunc 255 dst
  else
    let rest := substring (String.length src) (String.length folder) folder in
    let rest := match rest with String "/" r => r | _ => rest end in
    if 0 <? String.length rest then trunc 255 (dst +s+ "/" +s+ rest)
    else trunc 255 dst.

(** The folder registry: (foldername, owner_username). *)
Definition registry := list (string * string).

Fixpoint folder_index (reg : registry) (name : string) (i : nat) : option nat :=
  match reg with
  | [] => None
  | (n, _) :: reg' => if String.eqb n name then Some i else folder_index reg' name (S i)
  end.

(** The records visited by the walk and rewritten. *)
Definition move_records (t : trie) (src dst : string) : trie :=
  map (fun e =>
         let r := snd e in
         if starts_with (r_folder r) src
         then (fst e, mk_record (r_filename r) (r_owner r) (r_ss r)
                        (trunc 255 (moved_folder (r_folder r) src dst)) (r_acl r))
         else e) t.

(** [search_move_folder]: -1 when [src] is not a folder of [owner] or
    [dst] exists; otherwise the number of updates reported, at most
    [max_updates]. *)
Definition search_move_folder (reg : registry) (t : trie) (src dst owner : string)
    (max_updates : nat) : Z * registry * trie :=
  match folder_index reg src 0 with
  | None => ((-1)%Z, reg, t)
  | Some i =>
      let fowner := snd (nth i reg ("", "")) in
      if negb (String.eqb fowner owner) then ((-1)%Z, reg, t)
      else if existsb (fun e => String.eqb (fst e) dst) reg then ((-1)%Z, reg, t)
      else
        let reg' := Undo.set_nth reg i (trunc 255 dst, fowner) in
        let updated := List.length (filter (fun e => starts_with (r_folder (snd e)) src) t) in
        (Z.of_nat (Nat.min updated max_updates), reg', move_records t src dst)
  end.

(** [CacheEntry]. *)
Record cache_entry := mk_centry {
  c_filename : string;
  c_ss : Z;
  c_valid : bool;
  c_last : Z }.

(** [memset(cache, 0, sizeof(cache))] on [CACHE_SIZE = 16] entries. *)
Definition empty_cache : list cache_entry := repeat (mk_centry "" 0 false 0) 16.

(** [cache_lookup] at time [now]: the first valid entry of that name is
    renewed and its [ss_index] returned; -1 on a miss. *)
Fixpoint cache_lookup (c : list cache_entry) (f : string) (now : Z)
    : list cache_entry * Z :=
  match c with
  | [] => ([], (-1)%Z)
  | e :: c' =>
      if c_valid e && String.eqb (c_filename e) f
      then (mk_centry (c_filename e) (c_ss e) (c_valid e) now :: c', c_ss e)
      else let (c'', r) := cache_lookup c' f now in (e :: c'', r)
  end.

(** The slot search of [cache_add]: the first empty slot, else the first
    slot whose time is below every earlier one and below [oldest],
    which starts at [now]; slot 0 when there is none. *)
Fixpoint lru_slot (c : list cache_entry) (i lru : nat) (oldest : Z) : nat * bool :=
  match c with
  | [] => (lru, false)
  | e :: c' =>
      if negb (c_valid e) then (i, true)
      else if (c_last e <? oldest)%Z then lru_slot c' (S i) i (c_last e)
      else lru_slot c' (S i) lru oldest
  end.

(** [cache_add] at time [now]. *)
Definition cache_add (c : list cache_entry) (f : string) (ss : Z) (now : Z)
    : list cache_entry :=
  let (idx, _) := lru_slot c 0 0 now in
  Undo.set_nth c idx (mk_centry (trunc 255 f) ss true now).

(** [cache_invalidate]. *)
Fixpoint cache_invalidate (c : list cache_entry) (f : string) : list cache_entry :=
  match c with
  | [] => []
  | e :: c' =>
      if c_valid e && String.eqb (c_filename e) f
      then mk_centry (c_filename e) (c_ss e) false (c_last e) :: c'
      else e :: cache_invalidate c' f
  end.

Record ns_state := mk_ns {
  files : trie;
  cache : list cache_entry }.

(** [search_find_file] at time [now]. *)
Definition search_find_file (st : ns_state) (f : string) (now : Z) : ns_state * Z :=
  let (c1, hit) := cache_lookup (cache st) f now in
  if negb (hit =? -1)%Z then (mk_ns (files st) c1, hit)
  else
    let ss := match find_file_record (files st) f with
              | Some r => r_ss r
              | None => (-1)%Z
              end in
    if negb (ss =? -1)%Z then (mk_ns (files st) (cache_add c1 f ss now), ss)
    else (mk_ns (files st) c1, (-1)%Z).

(** Some valid entry of the cache names [f]. *)
Definition in_cache (c : list cache_entry) (f : string) : bool :=
  existsb (fun e => c_valid e && String.eqb (c_filename e) f) c.

(** Successive [cache_add] calls, one per (name, time), for files of one
    storage server. *)
Definition add_all (c : list cache_entry) (l : list (string * Z)) (ss : Z)
    : list cache_entry :=
  fold_left (fun c p => cache_add c (fst p) ss (snd p)) l c.



(** [handle_delete_request], up to the forwarding to the storage
    server. *)
Definition handle_delete_request (st : ns_state) (f u : string) : ns_state * string :=
  let (r, t') := search_delete_file (files st) f u in
  if (r =? -1)%Z then (st, "File not found.")
  else if (r =? -2)%Z then (st, "Access Denied (Only owner can delete).")
  else (mk_ns t' (cache_invalidate (cache st) f), "ACK").

(** [(int)] of a byte: the characters of a file name written in UTF-8. *)
Definition cafe : string :=
  "caf" +s+ String (ascii_of_nat 195) (String (ascii_of_nat 169) EmptyString).

(** No ACL entry of a record names its owner. *)
Definition owner_not_in_acl (r : file_record) : Prop :=
  Forall (fun e => acl_user e <> r_owner r) (r_acl r).

Definition trie_owner_not_in_acl (t : trie) : Prop :=
  Forall (fun e => owner_not_in_acl (snd e)) t.

End NS.

(* ================================================================= *)
(** ** Concrete runs used in the proofs *)

Module Scenarios.
Import CStr Store Handler.

(** A file of 257 sentences [a.] (770 bytes). *)
Definition live257 : string := String.concat " " (repeat "a." 257).

(** A writer's swap: the same file with sentence 1 rewritten to [b.]. *)
Definition swap257 : string := String.concat " " ("b." :: repeat "a." 256).

(** Two writers on connections 4 (sentence 1) and 5 (sentence 2). *)
Definition scenario_start : ss_state :=
  mk_ss [(file_path "doc.txt", "Hello world. Goodbye world.")]
        [mk_lock "doc.txt" 2 5; mk_lock "doc.txt" 1 4].

(** Writer 4 inserts [cruel] at position 3 of sentence 1, writer 5
    inserts [Farewell] at position 1 of sentence 2. *)
Definition after_inserts : ss_state :=
  let st1 := fst (insert_line scenario_start 4 "doc.txt" 1 3 "cruel") in
  fst (insert_line st1 5 "doc.txt" 2 1 "Farewell").

(** A commit of sentence 1 of [f] by connection 4 at time [now]: the
    WRITE lock, a swap file holding [content], then ETIRW. *)
Definition commit (st : ss_state) (f content : string) (now : Z) : ss_state :=
  fst (etirw (mk_ss (fs_set (disk st) (swap_path f 1 4) content)
                    (add_sentence_lock (locks st) f 1 4))
             4 "alice" now f 1).

Definition undo_start : ss_state := mk_ss [(file_path "doc.txt", "v0.")] [].
Definition one_commit : ss_state := commit undo_start "doc.txt" "v1." 100.
Definition two_commits : ss_state := commit one_commit "doc.txt" "v2." 200.

(** [two_commits] while connection 7 holds the WRITE lock on sentence 1. *)
Definition locked_after_commits : ss_state :=
  mk_ss (disk two_commits) [mk_lock "doc.txt" 1 7].

End Scenarios.

(* ================================================================= *)
(** ** More of the name server: permissions, purge, folders, users and
    the storage-server registry *)

Module NSMore.
Import CStr NS.

(** [search_check_permission]: 0 for a missing file, 1 for the owner or
    for an ACL entry of the user whose permission is at least [perm],
    0 otherwise. *)
Definition search_check_permission (t : trie) (f u : string) (perm : Z) : Z :=
  match find_file_record t f with
  | None => 0%Z
  | Some r =>
      if String.eqb (r_owner r) u then 1%Z
      else if existsb (fun e => String.eqb (acl_user e) u && (perm <=? acl_perm e)%Z) (r_acl r)
      then 1%Z else 0%Z
  end.

(** [search_remove_permission]: -1 for a missing file or a caller other
    than the owner; otherwise the first ACL entry of [target], if any,
    is overwritten by the last one and the count decremented; 0. *)
Definition search_remove_permission (t : trie) (f owner target : string) : Z * trie :=
  match find_file_record t f with
  | None => ((-1)%Z, t)
  | Some r =>
      if negb (String.eqb (r_owner r) owner) then ((-1)%Z, t) else
      match acl_index (r_acl r) target 0 with
      | None => (0%Z, t)
      | Some i =>
          let a := r_acl r in
          let last := nth (List.length a - 1) a (mk_acl "" 0) in
          (0%Z, tr_set t (trie_key f)
                  (mk_record (r_filename r) (r_owner r) (r_ss r) (r_folder r)
                     (removelast (Undo.set_nth a i last))))
      end
  end.

(** [search_purge_by_ss]: nothing for an index outside [0, 10);
    otherwise every record on that storage server is unlinked, after a
    [cache_invalidate] of its [filename]. The calls are made in the
    order of the trie walk; calls on different names commute. *)
Definition search_purge_by_ss (st : ns_state) (ss : Z) : ns_state :=
  if (ss <? 0)%Z || (10 <=? ss)%Z then st else
  let dead := filter (fun e => (r_ss (snd e) =? ss)%Z) (files st) in
  mk_ns (filter (fun e => negb (r_ss (snd e) =? ss)%Z) (files st))
        (fold_left (fun c e => cache_invalidate c (r_filename (snd e))) dead (cache st)).

(** [search_add_folder]: -1 for an empty name, a name already
    registered or a full registry ([MAX_FOLDERS = 1024]); otherwise the
    folder is appended and 0 returned. *)
Definition search_add_folder (reg : registry) (name owner : string) : Z * registry :=
  if String.length name =? 0 then ((-1)%Z, reg)
  else if existsb (fun e => String.eqb (fst e) name) reg then ((-1)%Z, reg)
  else if 1024 <=? List.length reg then ((-1)%Z, reg)
  else (0%Z, reg ++ [(trunc 255 name, trunc 63 owner)]).

(** [search_find_folder]: the first index of the name, or -1. *)
Definition search_find_folder (reg : registry) (name : string) : Z :=
  match folder_index reg name 0 with
  | Some i => Z.of_nat i
  | None => (-1)%Z
  end.

(** [search_set_file_folder]: the walk stops with -1 at a character
    outside [0, 128) or a missing node, -1 without a record, -2 for a
    caller other than the owner; otherwise the record's folder is set
    ([strncpy] of 255 bytes, or emptied) and its [ss_index] returned.
    The folder field is terminated only for a folder shorter than 255
    bytes (the record is malloc'd). *)
Definition search_set_file_folder (t : trie) (f folder owner : string) : Z * trie :=
  if negb (all_chars valid_char (cstr f)) then ((-1)%Z, t) else
  match tr_get t (cstr f) with
  | None => ((-1)%Z, t)
  | Some r =>
      if negb (String.eqb (r_owner r) owner) then ((-2)%Z, t) else
      let folder' := if 0 <? String.length folder then trunc 255 folder else "" in
      (r_ss r, tr_set t (cstr f)
                 (mk_record (r_filename r) (r_owner r) (r_ss r) folder' (r_acl r)))
  end.

(** [active_users], in slot order, with [user_count] entries. *)
Definition users := list string.

(** [user_manager_register]: nothing when the list is full
    ([MAX_ACTIVE_USERS = 50]) or already holds the name; otherwise the
    name (63 bytes at most) is appended. *)
Definition user_manager_register (us : users) (u : string) : users :=
  if 50 <=? List.length us then us
  else if existsb (fun v => String.eqb v u) us then us
  else us ++ [trunc 63 u].

Fixpoint user_index (us : users) (u : string) (i : nat) : option nat :=
  match us with
  | [] => None
  | v :: us' => if String.eqb v u then Some i else user_index us' u (S i)
  end.

(** [user_manager_deregister]: the first slot holding the name gets the
    last name, and the last slot is dropped. *)
Definition user_manager_deregister (us : users) (u : string) : users :=
  match user_index us u 0 with
  | None => us
  | Some i => removelast (Undo.set_nth us i (trunc 63 (nth (List.length us - 1) us "")))
  end.

(** [StorageServerInfo]. *)
Record ss_info := mk_ssinfo {
  ss_fd : Z;
  ss_ip : string;
  ss_port : Z;
  ss_active : bool }.

Definition inactive_slot : ss_info := mk_ssinfo (-1) "" 0 false.

(** [init_storage_manager]: [MAX_STORAGE_SERVERS = 10] inactive slots. *)
Definition init_registry : list ss_info := repeat inactive_slot 10.

Definition slot_active (reg : list ss_info) (i : nat) : bool :=
  ss_active (nth i reg inactive_slot).

(** The loop of [find_next_active_ss(start)]: [i] runs from 0, [k]
    iterations left. *)
Fixpoint scan_active (reg : list ss_info) (start i k : nat) : option nat :=
  match k with
  | O => None
  | S k' =>
      let index := (start + i) mod 10 in
      if slot_active reg index then Some index else scan_active reg start (S i) k'
  end.

(** [find_next_active_ss(start)]: the slot found, with the new
    [next_ss_index]; no slot and [next_ss_index] unchanged when none is
    active. *)
Definition find_next_active_ss (reg : list ss_info) (start : nat) : option nat * nat :=
  match scan_active reg start 0 10 with
  | Some index => (Some index, (index + 1) mod 10)
  | None => (None, start)
  end.

(** [get_ss_for_new_file] with the registry and [next_ss_index]. *)
Definition get_ss_for_new_file (reg : list ss_info) (next : nat) : option nat * nat :=
  find_next_active_ss reg next.

(** [get_ss_by_index]. *)
Definition get_ss_by_index (reg : list ss_info) (i : Z) : option ss_info :=
  if (i <? 0)%Z || (10 <=? i)%Z then None
  else if slot_active reg (Z.to_nat i) then Some (nth (Z.to_nat i) reg inactive_slot)
  else None.

Fixpoint first_slot (p : ss_info -> bool) (reg : list ss_info) (i : nat) : option nat :=
  match reg with
  | [] => None
  | s :: reg' => if p s then Some i else first_slot p reg' (S i)
  end.

(** [register_storage_server(sock_fd, header)]. [payload] is the
    registration payload as received, its address a C string within its
    64 bytes; [None] when the header's payload length is not
    [sizeof(SSRegistrationPayload)] or [recv_all] fails. [ack_sent] is
    whether the [send_header] of the ACK succeeds. -1 and no change on a
    bad or missing payload and when all 10 slots are active; otherwise the
    first inactive slot is filled and its index returned, or -1 when the
    ACK cannot be sent, the slot staying filled. *)
Definition register_storage_server (reg : list ss_info) (fd : Z)
    (payload : option (string * Z)) (ack_sent : bool) : Z * list ss_info :=
  match payload with
  | None => ((-1)%Z, reg)
  | Some (ip, port) =>
      match first_slot (fun s => negb (ss_active s)) (firstn 10 reg) 0 with
      | None => ((-1)%Z, reg)
      | Some i => (if ack_sent then Z.of_nat i else (-1)%Z,
                   Undo.set_nth reg i (mk_ssinfo fd ip port true))
      end
  end.

(** [remove_storage_server(sock_fd)]: the first active slot of that
    socket is deactivated and its files purged. *)
Definition remove_storage_server (reg : list ss_info) (st : ns_state) (fd : Z)
    : list ss_info * ns_state :=
  match first_slot (fun s => ss_active s && (ss_fd s =? fd)%Z) (firstn 10 reg) 0 with
  | None => (reg, st)
  | Some i =>
      let s := nth i reg inactive_slot in
      (Undo.set_nth reg i (mk_ssinfo (-1) (ss_ip s) (ss_port s) false),
       search_purge_by_ss st (Z.of_nat i))
  end.

(** The names of the valid cache entries. *)
(** A valid cache entry names a real storage server. *)
Definition ss_ok (e : cache_entry) : Prop := c_valid e = true -> c_ss e <> (-1)%Z.

Definition cache_names (c : list cache_entry) : list string :=
  map c_filename (filter c_valid c).

(** What the cache keeps as [search_find_file] is its only caller of
    [cache_add]: no name in two valid entries, and no valid entry for
    [ss_index] -1. *)
Definition cache_wf (c : list cache_entry) : Prop :=
  NoDup (cache_names c) /\ Forall (fun e => c_valid e = true -> c_ss e <> (-1)%Z) c.

(** The active-user list as registration keeps it: no name twice, names
    of at most 63 bytes, at most 50 of them. *)
Definition users_ok (us : users) : Prop :=
  NoDup us /\ Forall (fun v => String.length v <= 63) us /\ List.length us <= 50.

(** An ACL as grant and remove keep it: no user named twice, at most
    [MAX_ACL_ENTRIES = 10] entries. *)
Definition acl_ok (r : file_record) : Prop :=
  NoDup (map acl_user (r_acl r)) /\ List.length (r_acl r) <= 10.

Definition trie_acl_ok (t : trie) : Prop :=
  forall k r, tr_get t k = Some r -> acl_ok r.

End NSMore.

Module NSScenarios.
Import CStr NS.

(** [alice] creates [café] (UTF-8) on storage server 3. *)
Definition cafe_created : ns_state := mk_ns (search_add_file [] cafe 3 "alice") empty_cache.

(** Folders [a] and [ab] of [alice], with a file in each of [ab], [a/z]
    and [a]. *)
Definition folders_a_ab : registry := [("a", "alice"); ("ab", "alice")].

Definition files_a_ab : trie :=
  [("x.txt", mk_record "x.txt" "alice" 0 "ab" []);
   ("y.txt", mk_record "y.txt" "alice" 0 "a/z" []);
   ("z.txt", mk_record "z.txt" "alice" 0 "a" [])].

(** [alice]'s file [doc.txt] with an empty ACL. *)
Definition doc_owned : trie := search_add_file [] "doc.txt" 0 "alice".

(** File names [f1], [f2], ... *)
Definition fname (i : nat) : string := "f" +s+ Dec.show_nat i.

(** [f1] ... [f16] looked up (and cached) within second 5. *)
Definition sixteen_cached : list cache_entry :=
  add_all empty_cache (map (fun i => (fname i, 5%Z)) (seq 1 16)) 0.



End NSScenarios.

(* ================================================================= *)
(** ** Auxiliary notions for the proofs *)

Module XNSScenarios.
Import CStr NS NSMore NSScenarios.

(** [alice]'s [doc.txt] on storage server 0, looked up once at second 5
    (so also in the cache). *)
Definition doc_cached : ns_state := fst (search_find_file (mk_ns doc_owned empty_cache) "doc.txt" 5).

(** [doc_owned] after [alice] grants [bob] permission 2 on [doc.txt]. *)
Definition doc_bob : trie := snd (search_grant_permission doc_owned "doc.txt" "alice" "bob" 2).

End XNSScenarios.

Module Ranges.
Import CStr WriteEngine.



End Ranges.

(* ================================================================= *)
(** * Proofs *)

(** ** Strings and buffers *)

Module StringFacts.
Import CStr WriteEngine.

Lemma append_nil_r (s : string) : s +s+ "" = s.
Proof. induction s; simpl; congruence. Qed.

Lemma append_assoc (a b c : string) : (a +s+ b) +s+ c = a +s+ (b +s+ c).
Proof. induction a; simpl; congruence. Qed.


Lemma substring_0_all (n : nat) (s : string) : String.length s <= n -> substring 0 n s = s.
Proof.
  revert n; induction s as [|c s IH]; intros n H; destruct n; simpl in *; auto; try lia.
  f_equal. apply IH. lia.
Qed.

Lemma fread8191_small (s : string) : String.length s <= 8191 -> fread8191 s = s.
Proof. apply substring_0_all. Qed.



Lemma strtok_acc_nil_nonempty (d : ascii -> bool) (s cur : string) :
  cur <> "" -> strtok_acc d cur s <> [].
Proof.
  revert cur; induction s as [|c s IH]; intros cur Hc; simpl.
  - destruct (String.eqb_spec cur ""); [contradiction|discriminate].
  - destruct (d c).
    + destruct (String.eqb_spec cur ""); [contradiction|discriminate].
    + apply IH. destruct cur; discriminate.
Qed.

(** A file with some word is not empty. *)
Lemma strtok_empty (d : ascii -> bool) : strtok d "" = [].
Proof. reflexivity. Qed.

End StringFacts.

(** ** The commit merge *)

Module MergeProofs.
Import CStr WriteEngine StringFacts Ranges.









Lemma concat_cons (a b : string) (l : list string) :
  String.concat " " (a :: b :: l) = a +s+ " " +s+ String.concat " " (b :: l).
Proof. reflexivity. Qed.









End MergeProofs.

(** ** C1: the commit merge *)

Module C1.
Import CStr WriteEngine StringFacts MergeProofs.


End C1.

(** ** The lock table *)

Module LockProofs.
Import Store WriteEngine Handler Session.

Lemma locks_of_remove_sentence_lock (ls : list sentence_lock) (f : string) (t fd fd' : nat) :
  List.length (locks_of (remove_sentence_lock ls f t fd) fd')
  <= List.length (locks_of ls fd').
Proof.
  induction ls as [|l ls IH]; simpl; [lia|].
  destruct (String.eqb (lk_file l) f && (lk_sentence l =? t) && (lk_fd l =? fd)).
  - unfold locks_of. simpl. destruct (lk_fd l =? fd'); simpl; lia.
  - unfold locks_of in *. simpl. destruct (lk_fd l =? fd'); simpl; lia.
Qed.

Lemma locks_of_remove_client_locks (ls : list sentence_lock) (fd fd' : nat) :
  List.length (locks_of (remove_client_locks ls fd) fd')
  <= List.length (locks_of ls fd').
Proof.
  unfold locks_of, remove_client_locks.
  induction ls as [|l ls IH]; simpl; [lia|].
  destruct (lk_fd l =? fd); simpl; destruct (lk_fd l =? fd'); simpl; lia.
Qed.

Lemma write_info_none (ls : list sentence_lock) (fd : nat) :
  get_client_write_info ls fd = None -> locks_of ls fd = [].
Proof.
  unfold get_client_write_info, locks_of.
  induction ls as [|l ls IH]; simpl; [reflexivity|].
  destruct (lk_fd l =? fd); [discriminate|exact IH].
Qed.

Lemma add_lock_one (ls : list sentence_lock) (f : string) (n fd : nat) :
  get_client_write_info ls fd = None ->
  one_lock_per_connection ls ->
  one_lock_per_connection (add_sentence_lock ls f n fd).
Proof.
  intros Hn Hone fd'. unfold add_sentence_lock, locks_of. simpl.
  destruct (Nat.eqb_spec fd fd') as [<-|]; simpl.
  - pose proof (write_info_none ls fd Hn) as E. unfold locks_of in E.
    rewrite E. simpl. lia.
  - apply Hone.
Qed.

Lemma etirw_locks (st : ss_state) (fd : nat) (u : string) (now : Z) (f : string) (t : nat) :
  locks (fst (etirw st fd u now f t)) = remove_sentence_lock (locks st) f t fd.
Proof. unfold etirw. destruct (fs_get _ _); reflexivity. Qed.

Lemma insert_line_locks (st : ss_state) (fd : nat) (f : string) (t w : nat) (c : string) :
  locks (fst (insert_line st fd f t w c)) = locks st.
Proof.
  unfold insert_line.
  destruct (w =? 0); [reflexivity|].
  destruct (match fs_get _ _ with Some c => Some c | None => _ end); [|reflexivity].
  destruct (insert_content _ _ _ _); [destruct (creatable _)|]; reflexivity.
Qed.

Lemma write_cmd_locks (st : ss_state) (fd : nat) (f : string) (n : Z) :
  locks (fst (write_cmd st fd f n)) = locks st \/
  locks (fst (write_cmd st fd f n)) = add_sentence_lock (locks st) f (Z.to_nat n) fd.
Proof.
  unfold write_cmd.
  destruct (fs_get _ _); [|left; reflexivity].
  destruct (n <? 1)%Z; [left; reflexivity|].
  destruct (_ <? n)%Z; [left; reflexivity|].
  destruct (is_sentence_locked _ _ _ _); [left|right]; reflexivity.
Qed.

Lemma ss_step_one_lock (st st' : ss_state) :
  one_lock_per_connection (locks st) -> ss_step st st' ->
  one_lock_per_connection (locks st').
Proof.
  intros Hone Hs. destruct Hs as [st fd u now line st' out Hl| | |st fd]; simpl.
  - unfold line_step in Hl.
    destruct (get_client_write_info (locks st) fd) as [[f t]|] eqn:Hw.
    + destruct (is_etirw line).
      * injection Hl as Hl. apply (f_equal fst) in Hl. simpl in Hl. subst st'.
        intro fd'. rewrite etirw_locks.
        etransitivity; [apply locks_of_remove_sentence_lock|apply Hone].
      * destruct (parse_insert line) as [[wi nc]|].
        -- destruct (wi <? 1)%Z.
           ++ injection Hl as <- _. exact Hone.
           ++ injection Hl as Hl. apply (f_equal fst) in Hl. simpl in Hl. subst st'.
              rewrite insert_line_locks. exact Hone.
        -- injection Hl as <- _. exact Hone.
    + destruct (parse_write line) as [[f n]|]; [|discriminate].
      injection Hl as Hl. apply (f_equal fst) in Hl. simpl in Hl. subst st'.
      destruct (write_cmd_locks st fd f n) as [E|E]; rewrite E;
        [exact Hone|apply add_lock_one; assumption].
  - exact Hone.
  - exact Hone.
  - intro fd'. etransitivity; [apply locks_of_remove_client_locks|apply Hone].
Qed.

End LockProofs.

(** ** C10: one sentence lock per connection *)

Module C10.
Import Store Handler Session LockProofs.

(** Claim C10. From a lock table without locks, every state the server
    reaches holds at most one sentence lock per connection; and while a
    connection holds a lock, a line [WRITE <rest>] is not a new WRITE but
    an insert line that fails to parse, answered with the invalid-format
    error and leaving the state unchanged. *)
Theorem one_lock_per_connection_reachable (m : fs) (st : ss_state) :
  Relation_Operators.clos_refl_trans ss_state ss_step (mk_ss m []) st ->
  one_lock_per_connection (locks st)
  /\ (forall fd u now rest f t,
        get_client_write_info (locks st) fd = Some (f, t) ->
        line_step st fd u now ("WRITE " +s+ rest)
        = Some (st, "ERR_400 Invalid format. Use: <word_index> <content>")).
Proof.
  intros Hr. split.
  - apply Operators_Properties.clos_rt_rt1n in Hr.
    assert (H0 : one_lock_per_connection (locks (mk_ss m []))) by (intro fd; simpl; lia).
    revert H0. induction Hr as [x|x y z Hs _ IH]; intros H0; [exact H0|].
    apply IH. exact (ss_step_one_lock x y H0 Hs).
  - intros fd u now rest f t Hw. unfold line_step. rewrite Hw. reflexivity.
Qed.

End C10.

Module C10_witness.
Import Store Handler Session C10.

Lemma one_lock_per_connection_reachable_witness :
  Relation_Operators.clos_refl_trans ss_state ss_step
    (mk_ss [(file_path "a.txt", "Hi there.")] [])
    (mk_ss [(file_path "a.txt", "Hi there.")] [mk_lock "a.txt" 1 4])
  /\ one_lock_per_connection [mk_lock "a.txt" 1 4]
  /\ line_step (mk_ss [(file_path "a.txt", "Hi there.")] [mk_lock "a.txt" 1 4])
       4 "alice" 0%Z ("WRITE " +s+ "b.txt 2")
     = Some (mk_ss [(file_path "a.txt", "Hi there.")] [mk_lock "a.txt" 1 4],
             "ERR_400 Invalid format. Use: <word_index> <content>").
Proof.
  assert (Hr : Relation_Operators.clos_refl_trans ss_state ss_step
    (mk_ss [(file_path "a.txt", "Hi there.")] [])
    (mk_ss [(file_path "a.txt", "Hi there.")] [mk_lock "a.txt" 1 4])).
  { apply Relation_Operators.rt_step.
    apply (Step_line _ 4 "alice" 0%Z "WRITE a.txt 1" _ "OK_200 WRITE MODE ENABLED").
    vm_compute. reflexivity. }
  split; [exact Hr|].
  pose proof (one_lock_per_connection_reachable _ _ Hr) as [H1 H2].
  split; [exact H1|].
  apply (H2 4 "alice" 0%Z "b.txt 2" "a.txt" 1). vm_compute. reflexivity.
Defined.

End C10_witness.

Module C1_witness.
Import CStr WriteEngine Store Handler Scenarios C1.



Lemma commit_merge_257_sentences_length :
  List.length (spec_sentences live257) = 257
  /\ String.length (commit_merge (Some live257) swap257 1) = 767.
Proof. vm_compute. split; reflexivity. Qed.

Lemma scenario_both_orders :
  fs_get (disk (fst (etirw (fst (etirw after_inserts 4 "A" 10 "doc.txt" 1)) 5 "B" 11 "doc.txt" 2)))
         (file_path "doc.txt") = Some "Hello world cruel. Farewell Goodbye world."
  /\ fs_get (disk (fst (etirw (fst (etirw after_inserts 5 "B" 10 "doc.txt" 2)) 4 "A" 11 "doc.txt" 1)))
         (file_path "doc.txt") = Some "Hello world cruel. Farewell Goodbye world.".
Proof. vm_compute. split; reflexivity. Qed.

End C1_witness.

(** ** Word ranges of the recorded sentences *)

Module RangeProofs.
Import CStr WriteEngine StringFacts Ranges MergeProofs.










End RangeProofs.

(** ** The insert handler *)

Module InsertProofs.
Import CStr WriteEngine StringFacts MergeProofs RangeProofs.





End InsertProofs.

(** ** C4: insert positions *)

Module C4.
Import CStr WriteEngine StringFacts MergeProofs RangeProofs InsertProofs.


End C4.

Module C4_witness.
Import CStr WriteEngine C4.



End C4_witness.

(** ** C3: the undo history *)

Module C3.
Import Store Undo Handler Scenarios.

(** Claim C3 (code bug). After one commit of [v1.] over [v0.], the first
    undo restores [v0.] and the second undo is not refused: the backup
    line [100|doc.txt_100.bak|alice\n] has no used field, the user
    conversion takes the newline, and the rewritten line
    [100|doc.txt_100.bak|alice\n|1\n] reads back as an unused entry. After
    two commits, two undos give [v1.], not [v0.]. *)
Theorem undo_used_bit_lost :
  let (s1, r1) := direct_undo one_commit "doc.txt" in
  let (s2, r2) := direct_undo s1 "doc.txt" in
  r1 = "OK_200 UNDO COMPLETED"
  /\ fs_get (disk s1) (file_path "doc.txt") = Some "v0."
  /\ option_map read_undo_log (fs_get (disk s1) (undo_path "doc.txt"))
     = Some [mk_entry 100 "doc.txt_100.bak" ("alice" +s+ String "010"%char EmptyString) 0]
  /\ r2 = "OK_200 UNDO COMPLETED"
  /\ fs_get (disk s2) (file_path "doc.txt") = Some "v0."
  /\ (let (u1, _) := direct_undo two_commits "doc.txt" in
      let (u2, _) := direct_undo u1 "doc.txt" in
      fs_get (disk u2) (file_path "doc.txt") = Some "v1.").
Proof. vm_compute. repeat split. Qed.

End C3.

(** ** C6: undo under a sentence lock *)

Module C6.
Import Store Handler Scenarios.

(** The direct UNDO command is refused whenever a lock on the file is
    held, and leaves the state unchanged. *)
Lemma direct_undo_refused_under_lock (st : ss_state) (f : string) :
  file_locked (locks st) f = true ->
  direct_undo st f = (st, "ERR_409 Cannot undo: file is currently being edited").
Proof. intros H. unfold direct_undo. rewrite H. reflexivity. Qed.

(** Claim C6 (code bug). While connection 7 holds a lock on sentence 1
    of [doc.txt], the direct UNDO is refused, but the undo forwarded by
    the name server restores the previous version ([v2.] becomes [v1.])
    and acknowledges. *)
Theorem ns_undo_ignores_lock :
  file_locked (locks locked_after_commits) "doc.txt" = true
  /\ fs_get (disk locked_after_commits) (file_path "doc.txt") = Some "v2."
  /\ direct_undo locked_after_commits "doc.txt"
     = (locked_after_commits, "ERR_409 Cannot undo: file is currently being edited")
  /\ snd (ns_undo locked_after_commits "doc.txt") = Some "MSG_ACK"
  /\ fs_get (disk (fst (ns_undo locked_after_commits "doc.txt"))) (file_path "doc.txt")
     = Some "v1.".
Proof. vm_compute. repeat split. Qed.

End C6.

(** ** The data directory *)

Module FsFacts.
Import Store.

Lemma fs_get_del (m : fs) (p q : string) :
  fs_get (fs_del m p) q = if String.eqb q p then None else fs_get m q.
Proof.
  induction m as [|[k v] m IH]; simpl.
  - destruct (String.eqb q p); reflexivity.
  - destruct (String.eqb_spec k p) as [->|Hne]; simpl.
    + rewrite IH. destruct (String.eqb_spec q p); reflexivity.
    + rewrite IH. destruct (String.eqb_spec q k) as [->|]; [|reflexivity].
      destruct (String.eqb_spec k p); [contradiction|reflexivity].
Qed.

Lemma fs_get_set (m : fs) (p v q : string) :
  fs_get (fs_set m p v) q = if String.eqb q p then Some (CStr.cstr v) else fs_get m q.
Proof.
  unfold fs_set. simpl. rewrite fs_get_del.
  destruct (String.eqb q p); reflexivity.
Qed.

Lemma fs_get_append (m : fs) (p v q : string) :
  fs_get (fs_append m p v) q
  = if String.eqb q p
    then Some (match fs_get m p with Some c => c | None => "" end +s+ v)
    else fs_get m q.
Proof.
  unfold fs_append. simpl. rewrite fs_get_del.
  destruct (String.eqb q p); reflexivity.
Qed.


Lemma checkpoint_paths_differ' (f tag : string) :
  String.eqb (checkpoint_path f tag) (checkpoint_meta_path f) = false.
Proof. reflexivity. Qed.

Lemma cstr_idem (s : string) : CStr.cstr (CStr.cstr s) = CStr.cstr s.
Proof.
  induction s as [|a s IH]; simpl; [reflexivity|].
  destruct (Ascii.eqb a CStr.NUL) eqn:E; simpl; [reflexivity|].
  rewrite E, IH. reflexivity.
Qed.

End FsFacts.

(** ** C7: checkpoints *)

Module C7.
Import CStr Store Checkpoint.

(** Claim C7 (code bug). The tag conflict is not per file: checkpoint
    files are named [checkpoints/<file>_<tag>.checkpoint], so tag [c] of
    file [a_b] and tag [b_c] of file [a] are one file. Once CHECKPOINT
    a_b c has succeeded, CHECKPOINT a b_c is refused with the tag
    conflict ERR_409 and changes nothing, although file [a] has no
    checkpoint at all: its checkpoint meta log does not even exist. *)
Theorem checkpoint_conflict_across_files :
  let st0 := mk_ss [(file_path "a", "First."); (file_path "a_b", "Second.")] [] in
  let st1 := fst (checkpoint_cmd st0 "a_b" "c" "alice" 5) in
  snd (checkpoint_cmd st0 "a_b" "c" "alice" 5) = "OK_200 CHECKPOINT CREATED"
  /\ fs_get (disk st0) (checkpoint_path "a" "b_c") = None
  /\ fs_get (disk st1) (checkpoint_meta_path "a") = None
  /\ fs_get (disk st1) (checkpoint_path "a" "b_c") = Some "Second."
  /\ checkpoint_cmd st1 "a" "b_c" "alice" 6
     = (st1, "ERR_409 Checkpoint tag already exists").
Proof. cbv zeta. repeat split; vm_compute; reflexivity. Qed.

End C7.


(* ================================================================= *)
(** ** Name server *)

Module NSProofs.
Import CStr StringFacts NS.

Lemma set_nth_length {A} (l : list A) (i : nat) (x : A) :
  List.length (Undo.set_nth l i x) = List.length l.
Proof. revert i; induction l; intros [|i]; simpl; auto. Qed.

Lemma set_nth_app {A} (l1 l2 : list A) (y x : A) :
  Undo.set_nth (l1 ++ y :: l2) (List.length l1) x = l1 ++ x :: l2.
Proof. induction l1; simpl; congruence. Qed.


(** The first empty slot is taken. *)
Lemma lru_slot_empty (vs rest : list cache_entry) (e : cache_entry) (i lru : nat) (oldest : Z) :
  Forall (fun e => c_valid e = true) vs -> c_valid e = false ->
  fst (lru_slot (vs ++ e :: rest) i lru oldest) = i + List.length vs.
Proof.
  revert i lru oldest; induction vs as [|v vs IH]; intros i lru oldest Hv He; simpl.
  - rewrite He. simpl. lia.
  - inversion Hv; subst. rewrite H1. simpl.
    destruct (c_last v <? oldest)%Z; rewrite IH; auto; lia.
Qed.



Lemma in_cache_false (c : list cache_entry) (f : string) :
  (forall e, In e c -> c_valid e = true -> c_filename e <> f) -> in_cache c f = false.
Proof.
  intros H. unfold in_cache. apply Bool.not_true_iff_false. intros Hx.
  apply existsb_exists in Hx. destruct Hx as [e [Hin He]].
  apply andb_prop in He. destruct He as [Hv Hn]. apply String.eqb_eq in Hn.
  exact (H e Hin Hv Hn).
Qed.

(** [cache_add] takes the first empty slot. *)
Lemma cache_add_first_empty (c1 c2 : list cache_entry) (e : cache_entry) (f : string) (ss now : Z) :
  Forall (fun x => c_valid x = true) c1 -> c_valid e = false ->
  cache_add (c1 ++ e :: c2) f ss now = c1 ++ mk_centry (trunc 255 f) ss true now :: c2.
Proof.
  intros H1 He. unfold cache_add.
  pose proof (lru_slot_empty c1 c2 e 0 0 now H1 He) as Hi.
  destruct (lru_slot (c1 ++ e :: c2) 0 0 now) as [idx b]. cbn [fst] in Hi. subst idx.
  apply set_nth_app.
Qed.

(** From an empty cache the first 16 additions fill the slots in order. *)
Lemma add_all_fill (l : list (string * Z)) (ss : Z) :
  List.length l <= 16 ->
  add_all empty_cache l ss =
  map (fun p => mk_centry (trunc 255 (fst p)) ss true (snd p)) l
  ++ repeat (mk_centry "" 0 false 0) (16 - List.length l).
Proof.
  induction l as [|x l IH] using rev_ind; intros Hl; [reflexivity|].
  rewrite length_app in Hl. simpl in Hl.
  unfold add_all. rewrite fold_left_app. fold (add_all empty_cache l ss).
  rewrite IH by lia.
  replace (16 - List.length l) with (S (15 - List.length l)) by lia.
  cbn [repeat fold_left fst snd].
  rewrite cache_add_first_empty; [| |reflexivity].
  - rewrite map_app, <- app_assoc, length_app. cbn [map app List.length].
    replace (16 - (List.length l + 1)) with (15 - List.length l) by lia. reflexivity.
  - apply Forall_forall. intros e He. apply in_map_iff in He.
    destruct He as [p [<- _]]. reflexivity.
Qed.



End NSProofs.

Module C2.
Import CStr NS NSScenarios.

(** Claim C2 (code bug): a file whose name has a byte above 127, here [café]
    in UTF-8, is stored under the name without those bytes, so its
    owner [alice] finds it (storage server 3) but her delete answers
    "File not found." and leaves the trie and the cache as they were:
    the record is never unlinked. *)
Theorem delete_non_ascii_refused :
  snd (search_find_file cafe_created cafe 10) = 3%Z /\
  handle_delete_request cafe_created cafe "alice" = (cafe_created, "File not found.") /\
  find_file_record (files cafe_created) cafe <> None.
Proof.
  split; [vm_compute; reflexivity|].
  split; [vm_compute; reflexivity|].
  vm_compute. discriminate.
Qed.

End C2.

Module C5.
Import CStr NS NSScenarios.

(** Claim C5 (code bug): moving folder [a] to [c] rewrites the file in the
    sibling folder [ab] to [c/b], besides [a/z] to [c/z] and [a] to [c]:
    the prefix test is not segment-aligned. *)
Theorem move_rewrites_sibling_prefix :
  search_move_folder folders_a_ab files_a_ab "a" "c" "alice" 10 =
  (3%Z, [("c", "alice"); ("ab", "alice")],
   [("x.txt", mk_record "x.txt" "alice" 0 "c/b" []);
    ("y.txt", mk_record "y.txt" "alice" 0 "c/z" []);
    ("z.txt", mk_record "z.txt" "alice" 0 "c" [])]).
Proof. vm_compute. reflexivity. Qed.

End C5.

Module C9.
Import CStr NS NSScenarios.

(** Claim C9 (code bug): [alice]'s [doc.txt] starts with no ACL entry of its
    owner; [alice] granting herself permission 1 succeeds and puts
    [alice] into the ACL, and a rebuild from a manifest whose ACL lists
    the owner stores that entry too: neither keeps the owner out of
    the ACL. *)
Theorem grant_to_owner_enters_acl :
  trie_owner_not_in_acl doc_owned /\
  search_grant_permission doc_owned "doc.txt" "alice" "alice" 1 =
    (0%Z, [("doc.txt", mk_record "doc.txt" "alice" 0 "" [mk_acl "alice" 1])]) /\
  ~ trie_owner_not_in_acl (snd (search_grant_permission doc_owned "doc.txt" "alice" "alice" 1)) /\
  ~ trie_owner_not_in_acl
      (search_rebuild_add_file [] 0 (mk_payload "doc.txt" "alice" [mk_acl "alice" 2] "")).
Proof.
  split; [|split; [vm_compute; reflexivity|split]].
  - vm_compute. repeat constructor.
  - vm_compute. intros H. inversion H as [|? ? Hr _]. inversion Hr as [|? ? He _].
    apply He. reflexivity.
  - vm_compute. intros H. inversion H as [|? ? Hr _]. inversion Hr as [|? ? He _].
    apply He. reflexivity.
Qed.

End C9.

Module C8.
Import CStr StringFacts NS NSProofs.


End C8.

Module C8_witness.
Import CStr NS NSScenarios.



End C8_witness.

(* ================================================================= *)
(** ** Further properties of the storage server *)

Module XStoreFacts.
Import CStr Store StringFacts FsFacts.



Lemma length_substring_0 (n : nat) (s : string) : String.length (substring 0 n s) <= n.
Proof.
  revert n; induction s as [|c s IH]; intros [|n]; simpl; try lia.
  specialize (IH n). lia.
Qed.

Lemma length_cstr (s : string) : String.length (cstr s) <= String.length s.
Proof.
  induction s as [|c s IH]; simpl; [lia|].
  destruct (Ascii.eqb c NUL); simpl; lia.
Qed.

Lemma length_read_cstr (s : string) : String.length (read_cstr s) <= 8191.
Proof.
  unfold read_cstr, fread8191.
  pose proof (length_cstr (substring 0 8191 s)).
  pose proof (length_substring_0 8191 s). lia.
Qed.

(** Reading back what a [read_cstr] produced gives it again. *)
Lemma read_cstr_idem (s : string) : read_cstr (read_cstr s) = read_cstr s.
Proof.
  unfold read_cstr at 1. rewrite fread8191_small by apply length_read_cstr.
  unfold read_cstr. apply cstr_idem.
Qed.

Lemma cstr_read_cstr (s : string) : cstr (read_cstr s) = read_cstr s.
Proof. unfold read_cstr. apply cstr_idem. Qed.



Lemma has_char_app (c : ascii) (a b : string) :
  has_char c (a +s+ b) = has_char c a || has_char c b.
Proof. induction a as [|x a IH]; simpl; [reflexivity|]. rewrite IH. apply orb_assoc. Qed.

Lemma version_file_differ (b f : string) :
  String.eqb (file_path f) (version_path b) = false.
Proof. reflexivity. Qed.


Lemma version_undo_differ (b f : string) :
  String.eqb (version_path b) (undo_path f) = false.
Proof. reflexivity. Qed.


Lemma checkpoint_file_differ (f g tag : string) :
  String.eqb (checkpoint_path f tag) (file_path g) = false.
Proof. reflexivity. Qed.

Lemma checkpoint_version_differ (f b tag : string) :
  String.eqb (checkpoint_path f tag) (version_path b) = false.
Proof. reflexivity. Qed.

Lemma checkpoint_undo_differ (f g tag : string) :
  String.eqb (checkpoint_path f tag) (undo_path g) = false.
Proof. reflexivity. Qed.

(** What a successful [create_checkpoint] leaves at the checkpoint path. *)
Lemma create_checkpoint_stored (m m1 : fs) (f tag u : string) (now : Z) (c : string) :
  fs_get m (file_path f) = Some c ->
  Checkpoint.create_checkpoint m f tag u now = (1%Z, m1) ->
  fs_get m1 (checkpoint_path f tag) = Some (read_cstr c).
Proof.
  intros Hf H. unfold Checkpoint.create_checkpoint in H. rewrite Hf in H.
  destruct (fs_get m (checkpoint_path f tag)); [discriminate|].
  destruct (creatable _); cbn [negb] in H; [|discriminate].
  injection H as <-.
  rewrite fs_get_append, checkpoint_paths_differ', fs_get_set, String.eqb_refl.
  now rewrite cstr_read_cstr.
Qed.

End XStoreFacts.

Module XDec.
Import Dec StringFacts.


Lemma digit_nat (d : Z) : (0 <= d < 10)%Z ->
  is_digit (digit d) = true /\ (nat_of_ascii (digit d) - 48 = Z.to_nat d)%nat.
Proof.
  intros Hd. unfold digit, is_digit.
  rewrite Ascii.nat_ascii_embedding by lia.
  split; [apply andb_true_intro; split; apply Nat.leb_le; lia | lia].
Qed.




(** [printf("%ld")] writes no '/'. *)
Lemma show_Z_no_slash (n : Z) : Store.has_char "/" (show_Z n) = false.
Proof.
  assert (Hd : forall fuel k acc, (0 <= k)%Z -> Store.has_char "/" acc = false ->
               Store.has_char "/" (digits_aux fuel k acc) = false).
  { induction fuel as [|fuel IH]; intros k acc Hk Ha; cbn [digits_aux]; [exact Ha|].
    assert (H1 : Store.has_char "/" (String (digit (k mod 10)) acc) = false).
    { cbn [Store.has_char]. rewrite Ha, orb_false_r.
      destruct (digit_nat (k mod 10)) as [D _]; [apply Z.mod_pos_bound; lia|].
      destruct (digit (k mod 10)) as [[] [] [] [] [] [] [] []];
        vm_compute in D |- *; congruence. }
    destruct (k <? 10)%Z; [exact H1|]. apply IH; [apply Z.div_pos; lia|exact H1]. }
  unfold show_Z. destruct (Z.ltb_spec n 0).
  - cbn [String.append Store.has_char]. apply Hd; [lia|reflexivity].
  - apply Hd; [lia|reflexivity].
Qed.




End XDec.

Module XUndo.
Import CStr Store Undo StringFacts FsFacts XStoreFacts XDec.












End XUndo.

Module XCheckpoint.
Import CStr Store Checkpoint CheckpointOps StringFacts FsFacts XStoreFacts XDec.


(** REVERT after CHECKPOINT: once [create_checkpoint] has succeeded on a
    file with content [c], REVERT on a later state where the checkpoint
    file is unchanged, the live file exists with content [c2] and no
    sentence of the file is locked, succeeds: the live file holds [c]
    again (up to its first NUL within 8191 bytes) and the locks are kept.
    For a file name without '/', the text the live file held is saved as
    the backup [versions/<file>_<now>.bak] when that name has at most 255
    bytes; when it is longer the backup cannot be created and REVERT
    still succeeds, leaving that path as it was. *)
Theorem checkpoint_then_revert (m m1 m2 : fs) (ls : list sentence_lock)
    (f tag u u' : string) (now now' : Z) (c c2 : string) :
  fs_get m (file_path f) = Some c ->
  create_checkpoint m f tag u now = (1%Z, m1) ->
  fs_get m2 (checkpoint_path f tag) = fs_get m1 (checkpoint_path f tag) ->
  fs_get m2 (file_path f) = Some c2 ->
  file_locked ls f = false ->
  has_char "/" f = false ->
  let b := f +s+ "_" +s+ Dec.show_Z now' +s+ ".bak" in
  let r := revert_cmd (mk_ss m2 ls) f tag u' now' in
  snd r = "OK_200 REVERT COMPLETED"
  /\ locks (fst r) = ls
  /\ fs_get (disk (fst r)) (file_path f) = Some (read_cstr c)
  /\ (String.length b <= 255 ->
        fs_get (disk (fst r)) (version_path b) = Some (read_cstr c2))
  /\ (255 < String.length b ->
        fs_get (disk (fst r)) (version_path b) = fs_get m2 (version_path b)).
Proof.
  intros Hf Hc Hm2 Hf2 Hl Hs b r. subst r.
  rewrite (create_checkpoint_stored m m1 f tag u now c Hf Hc) in Hm2.
  unfold revert_cmd. cbn [locks disk]. rewrite Hl, Hf2.
  unfold revert_to_checkpoint. rewrite Hm2.
  unfold Undo.create_file_backup. rewrite Hf2. cbv beta iota zeta. fold b.
  assert (Hb : creatable b = (String.length b <=? 255)).
  { unfold creatable, b. rewrite !has_char_app, Hs, show_Z_no_slash. cbn.
    now rewrite andb_true_r. }
  rewrite Hb. rewrite read_cstr_idem.
  destruct (Nat.leb_spec (String.length b) 255) as [Hle|Hgt]; cbn [negb fst snd disk locks].
  - split; [reflexivity|]. split; [reflexivity|]. split; [|split].
    + rewrite fs_get_set, String.eqb_refl. now rewrite cstr_read_cstr.
    + intros _. rewrite fs_get_set. rewrite (String.eqb_sym _ (file_path f)), version_file_differ.
      rewrite fs_get_append, version_undo_differ, fs_get_set, String.eqb_refl.
      now rewrite cstr_read_cstr.
    + intros H. lia.
  - split; [reflexivity|]. split; [reflexivity|]. split; [|split].
    + rewrite fs_get_set, String.eqb_refl. now rewrite cstr_read_cstr.
    + intros H. lia.
    + intros _. rewrite fs_get_set. rewrite (String.eqb_sym _ (file_path f)), version_file_differ.
      reflexivity.
Qed.


End XCheckpoint.

Module XLocks.
Import CStr Store WriteEngine Handler Session LockProofs.

Lemma write_info_none_iff (ls : list sentence_lock) (fd : nat) :
  locks_of ls fd = [] -> get_client_write_info ls fd = None.
Proof.
  unfold get_client_write_info, locks_of.
  induction ls as [|l ls IH]; simpl; [reflexivity|].
  destruct (lk_fd l =? fd); [discriminate|exact IH].
Qed.

Lemma remove_sentence_lock_own (ls : list sentence_lock) (f : string) (t fd : nat) :
  get_client_write_info ls fd = Some (f, t) ->
  S (List.length (locks_of (remove_sentence_lock ls f t fd) fd))
  = List.length (locks_of ls fd).
Proof.
  unfold get_client_write_info, locks_of.
  induction ls as [|l ls IH]; simpl; [discriminate|].
  destruct (Nat.eqb_spec (lk_fd l) fd) as [Hfd|Hfd].
  - intros H. injection H as <- <-. subst fd.
    rewrite String.eqb_refl, !Nat.eqb_refl. simpl. reflexivity.
  - intros H. rewrite andb_false_r. simpl.
    apply Nat.eqb_neq in Hfd. rewrite Hfd. apply IH, H.
Qed.

Lemma remove_sentence_lock_other (ls : list sentence_lock) (f : string) (t fd fd' : nat) :
  fd' <> fd ->
  locks_of (remove_sentence_lock ls f t fd) fd' = locks_of ls fd'.
Proof.
  intros Hne. unfold locks_of.
  induction ls as [|l ls IH]; simpl; [reflexivity|].
  destruct (String.eqb (lk_file l) f && (lk_sentence l =? t) && (lk_fd l =? fd)) eqn:E.
  - apply andb_prop in E as [_ E]. apply Nat.eqb_eq in E.
    rewrite <- E in Hne. apply Nat.eqb_neq in Hne. rewrite Nat.eqb_sym, Hne. reflexivity.
  - simpl. rewrite IH. reflexivity.
Qed.

(** The end of a connection: after [remove_client_locks] the connection
    holds no lock (its commit and insert lines are no longer accepted)
    and every other connection keeps exactly the locks it had. *)
Theorem disconnect_releases (ls : list sentence_lock) (fd : nat) :
  get_client_write_info (remove_client_locks ls fd) fd = None
  /\ (forall fd', fd' <> fd -> locks_of (remove_client_locks ls fd) fd' = locks_of ls fd').
Proof.
  split.
  - apply write_info_none_iff. unfold locks_of, remove_client_locks.
    induction ls as [|l ls IH]; simpl; [reflexivity|].
    destruct (Nat.eqb_spec (lk_fd l) fd); simpl; [exact IH|].
    apply Nat.eqb_neq in n. rewrite n. exact IH.
  - intros fd' Hne. unfold locks_of, remove_client_locks.
    induction ls as [|l ls IH]; simpl; [reflexivity|].
    destruct (Nat.eqb_spec (lk_fd l) fd) as [E|E]; simpl.
    + rewrite E. apply Nat.eqb_neq in Hne. rewrite Nat.eqb_sym, Hne. exact IH.
    + destruct (lk_fd l =? fd'); [f_equal|]; exact IH.
Qed.

(** A commit line releases the lock: on a connection holding the lock
    of sentence [t] of [f], and holding no other as the storage server
    keeps it, whose commit stays within the C buffers ([commit_fits]),
    the ETIRW line answers [OK_200 WRITE COMPLETED]; after it the
    connection holds no lock and the other connections keep theirs. *)
Theorem etirw_releases (st : ss_state) (fd : nat) (u : string) (now : Z)
    (line f : string) (t : nat) :
  one_lock_per_connection (locks st) ->
  get_client_write_info (locks st) fd = Some (f, t) ->
  is_etirw line = true ->
  (forall sw, fs_get (disk st) (swap_path f t fd) = Some sw ->
     commit_fits (fs_get (disk st) (file_path f)) sw t = true) ->
  exists st', line_step st fd u now line = Some (st', "OK_200 WRITE COMPLETED")
    /\ get_client_write_info (locks st') fd = None
    /\ (forall fd', fd' <> fd -> locks_of (locks st') fd' = locks_of (locks st) fd').
Proof.
  intros Hone Hw He _. unfold line_step. rewrite Hw, He.
  exists (fst (etirw st fd u now f t)). split.
  - unfold etirw. destruct (fs_get _ _); reflexivity.
  - rewrite etirw_locks. split.
    + apply write_info_none_iff.
      pose proof (remove_sentence_lock_own (locks st) f t fd Hw) as E.
      specialize (Hone fd).
      destruct (locks_of (remove_sentence_lock (locks st) f t fd) fd); [reflexivity|].
      simpl in E. lia.
    + intros fd' Hne. apply remove_sentence_lock_other, Hne.
Qed.

(** WRITE is exclusive per sentence: once connection [fd] has been
    granted sentence [n] of [f], a WRITE of the same sentence by another
    connection is refused with ERR_409 and changes nothing. *)
Theorem write_lock_exclusive (st st1 : ss_state) (fd fd' : nat) (f : string) (n : Z) :
  write_cmd st fd f n = (st1, "OK_200 WRITE MODE ENABLED") ->
  fd' <> fd ->
  write_cmd st1 fd' f n
  = (st1, "ERR_409 This sentence is currently being edited by another user").
Proof.
  intros H Hne. unfold write_cmd in H |- *.
  destruct (fs_get (disk st) (file_path f)) as [c|] eqn:Ef; [|discriminate].
  destruct (n <? 1)%Z eqn:E1; [discriminate|].
  destruct (available_sentences c <? n)%Z eqn:E2; [discriminate|].
  destruct (is_sentence_locked (locks st) f (Z.to_nat n) fd); [discriminate|].
  injection H as <-. cbn [disk locks]. rewrite Ef, E2.
  unfold is_sentence_locked, add_sentence_lock. cbn [existsb lk_file lk_sentence lk_fd].
  rewrite String.eqb_refl, Nat.eqb_refl.
  apply Nat.eqb_neq in Hne. rewrite Nat.eqb_sym, Hne. reflexivity.
Qed.

Lemma available_sentences_pos (c : string) : (1 <= available_sentences c)%Z.
Proof.
  unfold available_sentences.
  destruct (String.length (fread8191 c) =? 0); [lia|].
  set (n := Z.of_nat (List.length (parse_sentences (tokenize (read_cstr c))))).
  assert (0 <= n)%Z by (unfold n; lia).
  destruct (Z.eqb_spec n 0); [lia|].
  repeat match goal with |- context [if ?b then _ else _] => destruct b end; lia.
Qed.

(** Sentence 1 of an existing file can always be asked for: for a file
    name of at most 255 bytes ([fname_write[256]]) and a file whose
    first 1024 words have at most 511 bytes each (the 512-byte rows the
    WRITE path copies them into), WRITE of sentence 1 either takes the
    lock or, when another connection holds it, is refused with ERR_409;
    it is never out of range. *)
Theorem write_first_sentence (st : ss_state) (fd : nat) (f c : string) :
  fs_get (disk st) (file_path f) = Some c ->
  String.length f <= 255 ->
  words_fit (tokenize (read_cstr c)) = true ->
  write_cmd st fd f 1
  = (mk_ss (disk st) (add_sentence_lock (locks st) f 1 fd), "OK_200 WRITE MODE ENABLED")
  \/ write_cmd st fd f 1
     = (st, "ERR_409 This sentence is currently being edited by another user").
Proof.
  intros Hf _ _. unfold write_cmd. rewrite Hf.
  pose proof (available_sentences_pos c) as Ha.
  replace (available_sentences c <? 1)%Z with false by (symmetry; apply Z.ltb_ge; lia).
  cbn [Z.ltb Z.compare].
  destruct (is_sentence_locked (locks st) f (Z.to_nat 1) fd); [right|left]; reflexivity.
Qed.

End XLocks.

Module XWords.
Import CStr WriteEngine StringFacts.

Lemma strtok_acc_word (d : ascii -> bool) (w cur s : string) :
  NS.all_chars (fun c => negb (d c)) w = true ->
  strtok_acc d cur (w +s+ s) = strtok_acc d (cur +s+ w) s.
Proof.
  revert cur; induction w as [|c w IH]; intros cur Hw; simpl.
  - now rewrite append_nil_r.
  - simpl in Hw. apply andb_prop in Hw as [H1 H2]. apply negb_true_iff in H1.
    rewrite H1, IH by exact H2. now rewrite append_assoc.
Qed.

(** Words joined by single spaces, as the commit writes them, are read
    back as the same words by the tokenizer of the WRITE path, as long
    as no word is empty or holds a space, tab or line end, every word has
    at most 511 bytes (the 512-byte rows the words are copied into), there
    are at most 1024 of them and the joined text has at most 8191 bytes
    (the 8192-byte copy [strtok] works on). *)
Theorem tokenize_join (ws : list string) :
  Forall (fun w => w <> "" /\ NS.all_chars (fun c => negb (is_ws c)) w = true) ws ->
  words_fit ws = true ->
  List.length ws <= 1024 ->
  String.length (join ws) <= 8191 ->
  tokenize (join ws) = ws.
Proof.
  intros Hws _ Hlen _. unfold tokenize, join, strtok.
  assert (E : strtok_acc is_ws "" (String.concat " " ws) = ws).
  { clear Hlen. induction Hws as [|w ws [Hne Hw] Hws IH]; [reflexivity|].
    destruct ws as [|w2 ws].
    - cbn [String.concat]. rewrite <- (append_nil_r w) at 1.
      rewrite strtok_acc_word by exact Hw. cbn [String.append strtok_acc].
      destruct (String.eqb_spec w ""); [contradiction|reflexivity].
    - change (String.concat " " (w :: w2 :: ws))
        with (w +s+ " " +s+ String.concat " " (w2 :: ws)).
      rewrite strtok_acc_word by exact Hw. cbn [String.append strtok_acc is_ws Ascii.eqb orb].
      assert (Hsp : is_ws " " = true) by reflexivity. rewrite Hsp.
      destruct (String.eqb_spec w ""); [contradiction|]. f_equal. exact IH. }
  rewrite E. apply firstn_all2. exact Hlen.
Qed.

End XWords.

(* ================================================================= *)
(** ** The name server: trie, cache and permissions *)

Module XNSFacts.
Import CStr StringFacts NS NSMore NSProofs.

Lemma tr_get_del (t : trie) (k k' : string) :
  tr_get (tr_del t k) k' = if String.eqb k' k then None else tr_get t k'.
Proof.
  unfold tr_del. induction t as [|[k0 r] t IH]; simpl.
  - destruct (String.eqb k' k); reflexivity.
  - destruct (String.eqb_spec k0 k) as [->|Hne]; simpl.
    + rewrite IH. destruct (String.eqb k' k); reflexivity.
    + destruct (String.eqb_spec k' k0) as [->|Hne']; [|exact IH].
      destruct (String.eqb_spec k0 k); [contradiction|reflexivity].
Qed.

Lemma tr_get_set (t : trie) (k k' : string) (r : file_record) :
  tr_get (tr_set t k r) k' = if String.eqb k' k then Some r else tr_get t k'.
Proof.
  unfold tr_set. simpl. rewrite tr_get_del. destruct (String.eqb k' k); reflexivity.
Qed.

Lemma filter_chars_all (p : ascii -> bool) (s : string) :
  all_chars p s = true -> filter_chars p s = s.
Proof.
  induction s as [|c s IH]; simpl; auto.
  intros H. apply andb_prop in H. destruct H as [-> H]. rewrite IH; auto.
Qed.

(** [search_delete_file] succeeds only through the owner branch. *)
Lemma delete_file_success (t t' : trie) (f u : string) (r : Z) :
  search_delete_file t f u = (r, t') -> r <> (-1)%Z -> r <> (-2)%Z ->
  all_chars valid_char (cstr f) = true /\ t' = tr_del t (cstr f).
Proof.
  unfold search_delete_file. destruct (all_chars valid_char (cstr f)) eqn:Ea.
  - destruct (tr_get t (cstr f)) as [rc|].
    + destruct (String.eqb (r_owner rc) u); intros H; injection H as <- <-; intros; auto.
      congruence.
    + intros H; injection H as <- <-; intros; congruence.
  - intros H; injection H as <- <-; intros; congruence.
Qed.

(** Cache lemmas. *)

Lemma cache_lookup_names (c : list cache_entry) (f : string) (now : Z) :
  cache_names (fst (cache_lookup c f now)) = cache_names c /\
  (Forall ss_ok c -> Forall ss_ok (fst (cache_lookup c f now))).
Proof.
  unfold cache_names. induction c as [|e c IH]; simpl; [auto|].
  destruct (c_valid e && String.eqb (c_filename e) f) eqn:E.
  - simpl. split; [destruct (c_valid e); reflexivity|].
    intros H. inversion H; subst. constructor; auto.
  - destruct (cache_lookup c f now) as [c'' r]. cbn [fst] in *. destruct IH as [IH1 IH2].
    split.
    + simpl. destruct (c_valid e); simpl; congruence.
    + intros H. inversion H; subst. constructor; auto.
Qed.

Lemma cache_lookup_miss (c : list cache_entry) (f : string) (now : Z) :
  Forall ss_ok c -> snd (cache_lookup c f now) = (-1)%Z ->
  in_cache c f = false /\ fst (cache_lookup c f now) = c.
Proof.
  unfold in_cache. induction c as [|e c IH]; simpl; [auto|].
  intros H. inversion H as [|? ? He Hc]; subst.
  destruct (c_valid e && String.eqb (c_filename e) f) eqn:E.
  - simpl. intros Hs. apply andb_prop in E. destruct E as [Ev _]. exfalso. exact (He Ev Hs).
  - intros Hr. destruct (cache_lookup c f now) as [c'' r] eqn:Ec. simpl in Hr |- *.
    try rewrite Ec in IH. destruct (IH Hc Hr) as [IH1 IH2]. simpl in IH2. subst c''. auto.
Qed.

Lemma cache_lookup_absent (c : list cache_entry) (f : string) (now : Z) :
  in_cache c f = false -> cache_lookup c f now = (c, (-1)%Z).
Proof.
  unfold in_cache. induction c as [|e c IH]; simpl; auto.
  destruct (c_valid e && String.eqb (c_filename e) f); simpl; [discriminate|].
  intros H. rewrite IH; auto.
Qed.

Lemma cache_names_in (c : list cache_entry) (e : cache_entry) :
  In e c -> c_valid e = true -> In (c_filename e) (cache_names c).
Proof.
  intros Hin Hv. unfold cache_names. apply in_map. apply filter_In. auto.
Qed.

Lemma in_cache_names (c : list cache_entry) (f : string) :
  in_cache c f = false -> ~ In f (cache_names c).
Proof.
  unfold in_cache, cache_names. intros H Hin. apply in_map_iff in Hin.
  destruct Hin as [e [He Hin]]. apply filter_In in Hin. destruct Hin as [Hin Hv].
  assert (existsb (fun e => c_valid e && String.eqb (c_filename e) f) c = true) as Hx.
  { apply existsb_exists. exists e. rewrite Hv, He, String.eqb_refl. auto. }
  congruence.
Qed.

Lemma cache_names_set_nth (c : list cache_entry) (i : nat) (x : cache_entry) (y : string) :
  In y (cache_names (Undo.set_nth c i x)) ->
  In y (cache_names c) \/ (c_valid x = true /\ y = c_filename x).
Proof.
  unfold cache_names. revert i. induction c as [|e c IH]; intros [|i]; simpl; auto.
  - destruct (c_valid x) eqn:Ex; simpl.
    + intros [<-|H]; [right; auto|left; destruct (c_valid e); simpl; auto].
    + intros H; left; destruct (c_valid e); simpl; auto.
  - destruct (c_valid e); simpl.
    + intros [<-|H]; [left; left; auto|]. destruct (IH i H) as [H'|H']; auto.
    + intros H. exact (IH i H).
Qed.

Lemma cache_nodup_set_nth (c : list cache_entry) (i : nat) (x : cache_entry) :
  NoDup (cache_names c) ->
  (c_valid x = true -> ~ In (c_filename x) (cache_names c)) ->
  NoDup (cache_names (Undo.set_nth c i x)).
Proof.
  revert i. induction c as [|e c IH]; intros [|i] Hn Hx; simpl; auto.
  - unfold cache_names in *. simpl in *.
    assert (Hn' : NoDup (map c_filename (filter c_valid c))).
    { destruct (c_valid e); simpl in Hn; [inversion Hn; auto|auto]. }
    destruct (c_valid x) eqn:Ev; simpl; auto.
    constructor; auto. intros Hin. apply (Hx eq_refl).
    destruct (c_valid e); simpl; auto.
  - unfold cache_names in *. simpl in *.
    destruct (c_valid e) eqn:Ev; simpl in *.
    + inversion Hn as [|? ? Hnot Hn']; subst. constructor.
      * intros Hin. apply (cache_names_set_nth c i x) in Hin. destruct Hin as [Hin|[Hv Heq]].
        -- exact (Hnot Hin).
        -- apply (Hx Hv). left. auto.
      * apply IH; auto. intros Hv Hin. apply (Hx Hv). right. exact Hin.
    + apply IH; auto.
Qed.

Lemma forall_set_nth {A} (P : A -> Prop) (l : list A) (i : nat) (x : A) :
  Forall P l -> P x -> Forall P (Undo.set_nth l i x).
Proof.
  revert i. induction l as [|y l IH]; intros [|i] H Hx; simpl; auto.
  - inversion H; subst. constructor; auto.
  - inversion H; subst. constructor; auto.
Qed.

Lemma cache_add_wf (c : list cache_entry) (f : string) (ss now : Z) :
  cache_wf c -> ~ In (trunc 255 f) (cache_names c) -> ss <> (-1)%Z ->
  cache_wf (cache_add c f ss now).
Proof.
  intros [Hn Hs] Hf Hss. unfold cache_add. destruct (lru_slot c 0 0 now) as [idx b].
  split.
  - apply cache_nodup_set_nth; auto.
  - apply forall_set_nth; [exact Hs|]. intros _. exact Hss.
Qed.

Lemma cache_invalidate_names (c : list cache_entry) (f y : string) :
  In y (cache_names (cache_invalidate c f)) -> In y (cache_names c).
Proof.
  unfold cache_names. induction c as [|e c IH]; simpl; auto.
  destruct (c_valid e && String.eqb (c_filename e) f) eqn:E; simpl.
  - destruct (c_valid e); simpl; auto.
  - destruct (c_valid e); simpl; auto. intros [H|H]; auto.
Qed.

Lemma cache_invalidate_wf (c : list cache_entry) (f : string) :
  cache_wf c -> cache_wf (cache_invalidate c f) /\ in_cache (cache_invalidate c f) f = false.
Proof.
  unfold cache_wf. induction c as [|e c IH]; intros [Hn Hs]; simpl; [auto|].
  inversion Hs as [|? ? He Hc]; subst.
  unfold cache_names in Hn. simpl in Hn.
  destruct (c_valid e && String.eqb (c_filename e) f) eqn:E.
  - apply andb_prop in E. destruct E as [Ev Ef]. apply String.eqb_eq in Ef.
    rewrite Ev in Hn. simpl in Hn. inversion Hn as [|? ? Hnot Hn']; subst.
    split; [split|].
    + unfold cache_names. simpl. exact Hn'.
    + constructor; [intros Hf; discriminate Hf|exact Hc].
    + unfold in_cache. simpl. apply in_cache_false.
      intros x Hx Hv Heq. apply Hnot. rewrite <- Heq. apply cache_names_in; auto.
  - assert (Hn' : NoDup (cache_names c)).
    { destruct (c_valid e); simpl in Hn; [inversion Hn; auto|auto]. }
    destruct (IH (conj Hn' Hc)) as [[IHn IHs] IHc].
    split; [split|].
    + unfold cache_names in *. simpl. destruct (c_valid e) eqn:Ev; simpl; auto.
      inversion Hn as [|? ? Hnot _]; subst. constructor; auto.
      intros Hin. apply Hnot. apply (cache_invalidate_names c f). exact Hin.
    + constructor; auto.
    + unfold in_cache in *. simpl. rewrite E. exact IHc.
Qed.

Lemma fold_invalidate_wf (l : list (string * file_record)) (c : list cache_entry) :
  cache_wf c ->
  cache_wf (fold_left (fun c e => cache_invalidate c (r_filename (snd e))) l c).
Proof.
  revert c. induction l as [|e l IH]; intros c H; simpl; auto.
  apply IH. apply cache_invalidate_wf. exact H.
Qed.

(** Lists updated by index: the swap-with-last removal of
    [search_remove_permission] and [user_manager_deregister]. *)

Lemma set_nth_app_lt {A} (l1 l2 : list A) (i : nat) (x : A) :
  i < List.length l1 -> Undo.set_nth (l1 ++ l2) i x = Undo.set_nth l1 i x ++ l2.
Proof.
  revert i. induction l1 as [|a l1 IH]; intros [|i] Hi; simpl in *; try lia; auto.
  rewrite IH by lia. reflexivity.
Qed.

Lemma set_nth_same {A} (l : list A) (i : nat) (d : A) :
  Undo.set_nth l i (nth i l d) = l.
Proof. revert i. induction l as [|a l IH]; intros [|i]; simpl; auto. rewrite IH. reflexivity. Qed.

Lemma map_set_nth {A B} (f : A -> B) (l : list A) (i : nat) (x : A) :
  map f (Undo.set_nth l i x) = Undo.set_nth (map f l) i (f x).
Proof. revert i. induction l as [|a l IH]; intros [|i]; simpl; auto. rewrite IH. reflexivity. Qed.

Lemma map_removelast {A B} (f : A -> B) (l : list A) :
  map f (removelast l) = removelast (map f l).
Proof.
  induction l as [|a l IH]; [reflexivity|]. destruct l as [|b l]; [reflexivity|].
  change (removelast (a :: b :: l)) with (a :: removelast (b :: l)).
  change (map f (a :: b :: l)) with (f a :: f b :: map f l).
  change (removelast (f a :: f b :: map f l)) with (f a :: removelast (f b :: map f l)).
  cbn [map]. rewrite IH. reflexivity.
Qed.

Lemma in_set_nth {A} (l : list A) (i : nat) (x : A) :
  i < List.length l -> In x (Undo.set_nth l i x).
Proof. revert i. induction l as [|a l IH]; intros [|i] Hi; simpl in *; try lia; auto. right. apply IH. lia. Qed.

Lemma count_set_nth {A} (dec : forall x y : A, {x = y} + {x <> y}) (l : list A) (i : nat) (y x d : A) :
  i < List.length l ->
  count_occ dec (Undo.set_nth l i y) x + (if dec (nth i l d) x then 1 else 0) =
  count_occ dec l x + (if dec y x then 1 else 0).
Proof.
  revert i. induction l as [|a l IH]; intros [|i] Hi; simpl in *; try lia.
  - destruct (dec y x), (dec a x); lia.
  - specialize (IH i ltac:(lia)). destruct (dec a x); lia.
Qed.

(** Overwriting slot [i] by the last element and dropping the last slot
    removes exactly one occurrence of the element at [i]. *)
Lemma swap_remove_count {A} (dec : forall x y : A, {x = y} + {x <> y}) (l : list A) (i : nat) (x d : A) :
  i < List.length l ->
  count_occ dec (removelast (Undo.set_nth l i (nth (List.length l - 1) l d))) x
  + (if dec (nth i l d) x then 1 else 0) = count_occ dec l x.
Proof.
  intros Hi. assert (Hne : l <> []) by (intros ->; simpl in Hi; lia).
  destruct (exists_last Hne) as [pre [y ->]].
  rewrite length_app in *. simpl in Hi |- *.
  replace (List.length pre + 1 - 1) with (List.length pre) by lia.
  rewrite app_nth2 by lia. rewrite Nat.sub_diag. cbn [nth].
  rewrite count_occ_app. cbn [count_occ].
  destruct (Nat.eq_dec i (List.length pre)) as [->|Hlt].
  - rewrite app_nth2, Nat.sub_diag by lia. cbn [nth].
    replace (pre ++ [y]) with (pre ++ y :: []) by reflexivity.
    rewrite set_nth_app, removelast_last. destruct (dec y x); lia.
  - rewrite app_nth1 by lia. rewrite set_nth_app_lt by lia. rewrite removelast_last.
    pose proof (count_set_nth dec pre i y x d ltac:(lia)) as H. destruct (dec y x); lia.
Qed.

Lemma length_swap_remove {A} (l : list A) (i : nat) (y : A) :
  List.length (removelast (Undo.set_nth l i y)) = List.length l - 1.
Proof.
  destruct l as [|a l] using rev_ind; [reflexivity|].
  destruct (Nat.lt_ge_cases i (List.length l)).
  - rewrite set_nth_app_lt, removelast_last, set_nth_length by exact H.
    rewrite length_app. simpl. lia.
  - destruct (Nat.eq_dec i (List.length l)) as [->|].
    + replace (l ++ [a]) with (l ++ a :: []) by reflexivity.
      rewrite set_nth_app, removelast_last, length_app. simpl. lia.
    + assert (E : Undo.set_nth (l ++ [a]) i y = l ++ [a]).
      { clear IHl. revert i H n. induction l as [|b l IH]; intros [|i] H n; simpl in *; try lia; auto.
        rewrite IH by lia. reflexivity. }
      rewrite E, removelast_last, length_app. simpl. lia.
Qed.

Lemma nodup_count {A} (dec : forall x y : A, {x = y} + {x <> y}) (l l' : list A) :
  NoDup l -> (forall x, count_occ dec l' x <= count_occ dec l x) -> NoDup l'.
Proof.
  intros H Hc. apply (NoDup_count_occ dec). intros x.
  pose proof (proj1 (NoDup_count_occ dec l) H x). specialize (Hc x). lia.
Qed.

Lemma nodup_snoc {A} (l : list A) (x : A) : NoDup l -> ~ In x l -> NoDup (l ++ [x]).
Proof.
  induction l as [|a l IH]; intros H Hx; simpl; [constructor; auto; constructor|].
  inversion H; subst. constructor.
  - rewrite in_app_iff. intros [Hin|[<-|[]]]; auto. apply Hx. left. auto.
  - apply IH; auto. intros Hin. apply Hx. right. auto.
Qed.

Lemma acl_index_some (a : list acl_entry) (u : string) (k i : nat) :
  acl_index a u k = Some i ->
  k <= i /\ i - k < List.length a /\ acl_user (nth (i - k) a (mk_acl "" 0)) = u.
Proof.
  revert k. induction a as [|e a IH]; intros k; simpl; [discriminate|].
  destruct (String.eqb_spec (acl_user e) u) as [He|He].
  - intros H; injection H as <-. rewrite Nat.sub_diag. simpl. repeat split; auto; lia.
  - intros H. destruct (IH (S k) H) as (H1 & H2 & H3).
    replace (i - k) with (S (i - S k)) by lia. simpl. repeat split; auto; lia.
Qed.

Lemma acl_index_none (a : list acl_entry) (u : string) (k : nat) :
  acl_index a u k = None -> ~ In u (map acl_user a).
Proof.
  revert k. induction a as [|e a IH]; intros k; simpl; [auto|].
  destruct (String.eqb_spec (acl_user e) u) as [He|He]; [discriminate|].
  intros H [H'|H']; [contradiction|exact (IH (S k) H H')].
Qed.

Lemma acl_absent_denied (a : list acl_entry) (u : string) (p : Z) :
  ~ In u (map acl_user a) ->
  existsb (fun e => String.eqb (acl_user e) u && (p <=? acl_perm e)%Z) a = false.
Proof.
  intros H. apply Bool.not_true_iff_false. intros Hx.
  apply existsb_exists in Hx. destruct Hx as [e [Hin He]].
  apply andb_prop in He. destruct He as [He _]. apply String.eqb_eq in He.
  apply H. rewrite <- He. apply in_map. exact Hin.
Qed.

Lemma trie_acl_ok_forall (t : trie) :
  Forall (fun e => acl_ok (snd e)) t -> trie_acl_ok t.
Proof.
  intros H k r. induction t as [|[k0 r0] t IH]; simpl; [discriminate|].
  inversion H; subst. destruct (String.eqb k k0); [intros E; injection E as <-; auto|auto].
Qed.

Lemma acl_last_user (a : list acl_entry) :
  acl_user (nth (List.length a - 1) a (mk_acl "" 0)) =
  nth (List.length (map acl_user a) - 1) (map acl_user a) "".
Proof. rewrite length_map. symmetry. exact (map_nth acl_user a (mk_acl "" 0) _). Qed.

(** Purge. *)

Lemma tr_get_filter_dead (t : trie) (ss : Z) (k : string) (r : file_record) :
  tr_get (filter (fun e => negb (r_ss (snd e) =? ss)%Z) t) k = Some r -> r_ss r <> ss.
Proof.
  induction t as [|[k0 r0] t IH]; simpl; [discriminate|].
  destruct (Z.eqb_spec (r_ss r0) ss) as [He|He]; simpl; [exact IH|].
  destruct (String.eqb k k0); [intros H; injection H as <-; exact He|exact IH].
Qed.

Lemma tr_get_filter_live (t : trie) (ss : Z) (k : string) (r : file_record) :
  tr_get t k = Some r -> r_ss r <> ss ->
  tr_get (filter (fun e => negb (r_ss (snd e) =? ss)%Z) t) k = Some r.
Proof.
  induction t as [|[k0 r0] t IH]; simpl; [discriminate|].
  destruct (String.eqb_spec k k0) as [->|Hne].
  - intros H Hs. injection H as E. subst r0.
    destruct (Z.eqb_spec (r_ss r) ss); [contradiction|]. simpl. rewrite String.eqb_refl. auto.
  - intros H Hs. destruct (r_ss r0 =? ss)%Z; simpl; auto.
    destruct (String.eqb_spec k k0); [contradiction|auto].
Qed.

Lemma tr_get_in (t : trie) (k : string) (r : file_record) : tr_get t k = Some r -> In (k, r) t.
Proof.
  induction t as [|[k0 r0] t IH]; simpl; [discriminate|].
  destruct (String.eqb_spec k k0) as [->|]; [intros H; injection H as <-; auto|auto].
Qed.

Lemma in_cache_invalidate_other (c : list cache_entry) (f g : string) :
  in_cache c f = false -> in_cache (cache_invalidate c g) f = false.
Proof.
  unfold in_cache. induction c as [|e c IH]; simpl; auto.
  intros H. apply orb_false_iff in H. destruct H as [H1 H2].
  destruct (c_valid e && String.eqb (c_filename e) g); simpl; [rewrite H2; reflexivity|].
  rewrite H1, IH; auto.
Qed.

Lemma fold_invalidate_absent (l : list (string * file_record)) (c : list cache_entry) (x : string) :
  cache_wf c -> In x (map (fun e => r_filename (snd e)) l) \/ in_cache c x = false ->
  in_cache (fold_left (fun c e => cache_invalidate c (r_filename (snd e))) l c) x = false.
Proof.
  revert c. induction l as [|e l IH]; intros c Hw H; simpl in *.
  - destruct H as [[]|H]; exact H.
  - destruct (cache_invalidate_wf c (r_filename (snd e)) Hw) as [Hw' Hc].
    apply IH; [exact Hw'|].
    destruct H as [[<-|H]|H]; auto. right. apply in_cache_invalidate_other. exact H.
Qed.

(** Slot searches. *)

Lemma first_slot_some (p : ss_info -> bool) (l : list ss_info) (k i : nat) (d : ss_info) :
  first_slot p l k = Some i ->
  k <= i /\ i - k < List.length l /\ p (nth (i - k) l d) = true /\
  (forall j, j < i - k -> p (nth j l d) = false).
Proof.
  revert k. induction l as [|s l IH]; intros k; simpl; [discriminate|].
  destruct (p s) eqn:Ep.
  - intros H; injection H as <-. rewrite Nat.sub_diag. repeat split; auto; [lia|intros; lia].
  - intros H. destruct (IH (S k) H) as (H1 & H2 & H3 & H4).
    replace (i - k) with (S (i - S k)) by lia. simpl. repeat split; auto; [lia|lia|].
    intros [|j] Hj; [exact Ep|]. apply H4. lia.
Qed.

Lemma first_slot_none (p : ss_info -> bool) (l : list ss_info) (k : nat) (d : ss_info) :
  first_slot p l k = None -> forall j, j < List.length l -> p (nth j l d) = false.
Proof.
  revert k. induction l as [|s l IH]; intros k; simpl; [intros; lia|].
  destruct (p s) eqn:Ep; [discriminate|].
  intros H [|j] Hj; [exact Ep|]. apply (IH (S k) H). lia.
Qed.

Lemma nth_firstn_lt {A} (n j : nat) (l : list A) (d : A) :
  j < n -> nth j (firstn n l) d = nth j l d.
Proof.
  revert n l. induction j as [|j IH]; intros [|n] [|a l] Hj; simpl; auto; try lia.
  apply IH. lia.
Qed.

Lemma nth_set_nth_eq {A} (l : list A) (i : nat) (x d : A) :
  i < List.length l -> nth i (Undo.set_nth l i x) d = x.
Proof. revert i. induction l as [|a l IH]; intros [|i] Hi; simpl in *; auto; try lia. apply IH. lia. Qed.

Lemma nth_set_nth_neq {A} (l : list A) (i j : nat) (x d : A) :
  j <> i -> nth j (Undo.set_nth l i x) d = nth j l d.
Proof.
  revert i j. induction l as [|a l IH]; intros [|i] [|j] Hij; simpl; auto; try lia.
  all: apply IH; lia.
Qed.

Lemma scan_active_some (reg : list ss_info) (start i k idx : nat) :
  scan_active reg start i k = Some idx ->
  exists j, i <= j < i + k /\ idx = (start + j) mod 10 /\ slot_active reg idx = true /\
    forall j', i <= j' < j -> slot_active reg ((start + j') mod 10) = false.
Proof.
  revert i. induction k as [|k IH]; intros i; cbn [scan_active]; [discriminate|].
  destruct (slot_active reg ((start + i) mod 10)) eqn:E.
  - intros H; injection H as <-. exists i. repeat split; auto; try lia.
  - intros H. destruct (IH (S i) H) as (j & Hj & -> & Ha & Hb). exists j.
    repeat split; auto; try lia.
    intros j' Hj'. destruct (Nat.eq_dec j' i) as [->|]; [exact E|]. apply Hb. lia.
Qed.

Lemma scan_active_none (reg : list ss_info) (start i k : nat) :
  scan_active reg start i k = None ->
  forall j, i <= j < i + k -> slot_active reg ((start + j) mod 10) = false.
Proof.
  revert i. induction k as [|k IH]; intros i; cbn [scan_active]; [intros; lia|].
  destruct (slot_active reg ((start + i) mod 10)) eqn:E; [discriminate|].
  intros H j Hj. destruct (Nat.eq_dec j i) as [->|]; [exact E|]. apply (IH (S i) H). lia.
Qed.

(** Folders. *)

Lemma folder_index_ge (reg : registry) (g : string) (k i : nat) :
  folder_index reg g k = Some i -> k <= i.
Proof.
  revert k. induction reg as [|[n o] reg IH]; intros k; simpl; [discriminate|].
  destruct (String.eqb n g); [intros H; injection H; lia|intros H; specialize (IH _ H); lia].
Qed.

Lemma folder_index_existsb (reg : registry) (g : string) (k : nat) :
  folder_index reg g k = None <-> existsb (fun e => String.eqb (fst e) g) reg = false.
Proof.
  revert k. induction reg as [|[n o] reg IH]; intros k; simpl; [split; auto|].
  destruct (String.eqb n g); simpl; [split; discriminate|apply IH].
Qed.

Lemma folder_index_app (reg : registry) (n o g : string) (k : nat) :
  folder_index (reg ++ [(n, o)]) g k =
  match folder_index reg g k with
  | Some i => Some i
  | None => if String.eqb n g then Some (k + List.length reg) else None
  end.
Proof.
  revert k. induction reg as [|[n' o'] reg IH]; intros k; simpl.
  - rewrite Nat.add_0_r. reflexivity.
  - destruct (String.eqb n' g); [reflexivity|]. rewrite IH. rewrite Nat.add_succ_r. reflexivity.
Qed.

(** Users. *)

Lemma user_index_some (us : users) (u : string) (k i : nat) :
  user_index us u k = Some i -> k <= i /\ i - k < List.length us /\ nth (i - k) us "" = u.
Proof.
  revert k. induction us as [|v us IH]; intros k; simpl; [discriminate|].
  destruct (String.eqb_spec v u) as [->|].
  - intros H; injection H as <-. rewrite Nat.sub_diag. repeat split; auto; lia.
  - intros H. destruct (IH (S k) H) as (H1 & H2 & H3).
    replace (i - k) with (S (i - S k)) by lia. simpl. repeat split; auto; lia.
Qed.

Lemma user_index_none (us : users) (u : string) (k : nat) :
  user_index us u k = None -> ~ In u us.
Proof.
  revert k. induction us as [|v us IH]; intros k; simpl; [auto|].
  destruct (String.eqb_spec v u); [discriminate|]. intros H [->|H']; [auto|exact (IH _ H H')].
Qed.

Lemma mod10_cover (next i : nat) : i < 10 -> exists j, j < 10 /\ (next + j) mod 10 = i.
Proof.
  intros Hi. pose proof (Nat.mod_upper_bound next 10 ltac:(lia)) as Hm.
  pose proof (Nat.div_mod_eq next 10) as Hd.
  set (m := next mod 10) in *. set (q := next / 10) in *.
  destruct (Nat.le_gt_cases m i).
  - exists (i - m). split; [lia|]. replace (next + (i - m)) with (i + q * 10) by lia.
    rewrite Nat.Div0.mod_add. apply Nat.mod_small; lia.
  - exists (i + 10 - m). split; [lia|].
    replace (next + (i + 10 - m)) with (i + (q + 1) * 10) by lia.
    rewrite Nat.Div0.mod_add. apply Nat.mod_small; lia.
Qed.

Lemma in_range_index (i : Z) : (0 <= i < 10)%Z -> ((i <? 0)%Z || (10 <=? i)%Z) = false.
Proof. intros H. apply orb_false_iff. split; [apply Z.ltb_ge|apply Z.leb_gt]; lia. Qed.

Lemma slot_active_length (reg : list ss_info) (i : nat) :
  slot_active reg i = true -> i < List.length reg.
Proof.
  unfold slot_active. intros H. destruct (Nat.lt_ge_cases i (List.length reg)); auto.
  rewrite nth_overflow in H by lia. discriminate.
Qed.

End XNSFacts.

Module XNameServer.
Import CStr StringFacts NS NSMore NSProofs XNSFacts.

(** [search_add_file] then [find_file_record]: a name reaching the same
    trie node as [f] (the same characters once the bytes outside
    [0, 128) are skipped) finds the record already there, or else the
    new record of [f] (name [f], owner [owner], no folder, no ACL); every
    other name finds what it found before.  The name is shorter than 255
    bytes and the owner shorter than 63, so that the [strncpy] copies into
    the malloc'd record are terminated. *)
Theorem add_then_find (t : trie) (f : string) (ss : Z) (owner g : string) :
  String.length f < 255 -> String.length owner < 63 ->
  find_file_record (search_add_file t f ss owner) g =
  if String.eqb (trie_key g) (trie_key f)
  then Some (match find_file_record t f with
             | Some r => r
             | None => mk_record f owner ss "" []
             end)
  else find_file_record t g.
Proof.
  intros Hf Ho.
  unfold search_add_file, find_file_record.
  destruct (tr_get t (trie_key f)) as [r|] eqn:E.
  - destruct (String.eqb_spec (trie_key g) (trie_key f)) as [Heq|]; [|reflexivity].
    rewrite Heq. exact E.
  - rewrite tr_get_set. unfold trunc.
    rewrite (substring_0_all 255 f ltac:(lia)), (substring_0_all 63 owner ltac:(lia)).
    reflexivity.
Qed.

(** The cache invariant [cache_wf] (no name in two valid entries, no
    valid entry for server -1) is kept by a lookup of a name of at most
    255 bytes, by a delete request and by the purge of a storage
    server. *)
Theorem cache_wf_kept (st : ns_state) (f u : string) (now ss : Z) :
  cache_wf (cache st) ->
  (String.length f <= 255 -> cache_wf (cache (fst (search_find_file st f now)))) /\
  cache_wf (cache (fst (handle_delete_request st f u))) /\
  cache_wf (cache (search_purge_by_ss st ss)).
Proof.
  intros Hw. split; [|split].
  - intros Hlen. destruct Hw as [Hn Hs]. unfold search_find_file.
    pose proof (cache_lookup_names (cache st) f now) as [Hnames Hss].
    pose proof (cache_lookup_miss (cache st) f now Hs) as Hmiss.
    destruct (cache_lookup (cache st) f now) as [c1 hit] eqn:El. cbn [fst snd] in *.
    assert (Hw1 : cache_wf c1) by (split; [rewrite Hnames; exact Hn|exact (Hss Hs)]).
    destruct (negb (hit =? -1)%Z) eqn:Eh; [exact Hw1|].
    apply negb_false_iff, Z.eqb_eq in Eh. destruct (Hmiss Eh) as [Hc ->].
    destruct (negb (_ =? -1)%Z) eqn:Es; cbn [cache]; [|exact Hw1].
    apply cache_add_wf; [exact Hw1| |].
    + unfold trunc. rewrite (substring_0_all 255 f Hlen). apply in_cache_names. exact Hc.
    + apply negb_true_iff, Z.eqb_neq in Es. exact Es.
  - unfold handle_delete_request. destruct (search_delete_file (files st) f u) as [r t'].
    destruct (r =? -1)%Z; [exact Hw|]. destruct (r =? -2)%Z; [exact Hw|].
    apply cache_invalidate_wf. exact Hw.
  - unfold search_purge_by_ss. destruct ((ss <? 0)%Z || (10 <=? ss)%Z); [exact Hw|].
    apply fold_invalidate_wf. exact Hw.
Qed.

(** After a delete request answered "ACK", the name is gone from the
    trie and, the cache satisfying [cache_wf], a lookup of it answers -1
    (not found): no stale cache entry survives. *)
Theorem delete_then_find (st : ns_state) (f u : string) (now : Z) :
  cache_wf (cache st) ->
  snd (handle_delete_request st f u) = "ACK" ->
  find_file_record (files (fst (handle_delete_request st f u))) f = None /\
  snd (search_find_file (fst (handle_delete_request st f u)) f now) = (-1)%Z.
Proof.
  intros Hw. unfold handle_delete_request.
  destruct (search_delete_file (files st) f u) as [r t'] eqn:Ed.
  destruct (Z.eqb_spec r (-1)) as [|H1]; [cbn [snd]; discriminate|].
  destruct (Z.eqb_spec r (-2)) as [|H2]; [cbn [snd]; discriminate|].
  intros _. cbn [fst files cache].
  destruct (delete_file_success _ _ _ _ _ Ed H1 H2) as [Ha ->].
  assert (Hf : find_file_record (tr_del (files st) (cstr f)) f = None).
  { unfold find_file_record, trie_key. rewrite (filter_chars_all _ _ Ha).
    rewrite tr_get_del, String.eqb_refl. reflexivity. }
  split; [exact Hf|].
  destruct (cache_invalidate_wf (cache st) f Hw) as [_ Hc].
  unfold search_find_file. cbn [cache files].
  rewrite (cache_lookup_absent _ _ _ Hc). cbn [snd fst negb Z.eqb].
  rewrite Hf. reflexivity.
Qed.

End XNameServer.

Module XPermissions.
Import CStr StringFacts NS NSMore NSProofs XNSFacts.

(** After a successful grant of [perm] by an owner whose name is shorter
    than 63 bytes to a user name shorter than 63 bytes (so that the owner
    field compared and the ACL entry written by [strncpy] are terminated),
    that user passes the permission check on the file for every level up
    to [perm]. *)
Theorem grant_then_check (t t' : trie) (f owner target : string) (perm p : Z) :
  search_grant_permission t f owner target perm = (0%Z, t') ->
  String.length owner < 63 -> String.length target < 63 -> (p <= perm)%Z ->
  search_check_permission t' f target p = 1%Z.
Proof.
  intros H _ Hl Hp. assert (Hl' : String.length target <= 63) by lia.
  clear Hl. rename Hl' into Hl. revert H Hl Hp.
  unfold search_grant_permission.
  destruct (find_file_record t f) as [r|] eqn:Ef; [|discriminate].
  destruct (negb (String.eqb (r_owner r) owner)); [discriminate|].
  destruct (acl_index (r_acl r) target 0) as [i|] eqn:Ei.
  - intros H Hl Hp. simpl in H. injection H as <-.
    unfold search_check_permission, find_file_record.
    rewrite tr_get_set, String.eqb_refl. cbn [r_owner r_acl].
    destruct (String.eqb (r_owner r) target); [reflexivity|].
    destruct (acl_index_some _ _ _ _ Ei) as (_ & Hi & Hu). rewrite Nat.sub_0_r in Hi, Hu.
    replace (existsb _ _) with true; [reflexivity|]. symmetry. apply existsb_exists.
    eexists; split; [apply in_set_nth; exact Hi|]. cbn [acl_user acl_perm].
    rewrite Hu, String.eqb_refl, (proj2 (Z.leb_le _ _) Hp). reflexivity.
  - destruct (10 <=? List.length (r_acl r)); simpl; [discriminate|].
    intros H Hl Hp. injection H as <-.
    unfold search_check_permission, find_file_record.
    rewrite tr_get_set, String.eqb_refl. cbn [r_owner r_acl].
    destruct (String.eqb (r_owner r) target); [reflexivity|].
    replace (existsb _ _) with true; [reflexivity|]. symmetry. apply existsb_exists.
    eexists; split; [apply in_or_app; right; left; reflexivity|]. cbn [acl_user acl_perm].
    unfold trunc. rewrite (substring_0_all 63 target Hl), String.eqb_refl.
    rewrite (proj2 (Z.leb_le _ _) Hp). reflexivity.
Qed.

(** Grant (of a user name shorter than 63 bytes, so that the ACL entry
    written by [strncpy] is terminated) and remove keep every ACL free of
    repeated users and within its 10 entries. *)
Theorem acl_ok_kept (t : trie) (f owner target : string) (perm : Z) :
  trie_acl_ok t ->
  (String.length target < 63 ->
   trie_acl_ok (snd (search_grant_permission t f owner target perm))) /\
  trie_acl_ok (snd (search_remove_permission t f owner target)).
Proof.
  intros Ht. split.
  - intros Hl. assert (Hl' : String.length target <= 63) by lia. clear Hl. rename Hl' into Hl.
    unfold search_grant_permission.
    destruct (find_file_record t f) as [r|] eqn:Ef; [|exact Ht].
    destruct (negb (String.eqb (r_owner r) owner)); [exact Ht|].
    assert (Hr : acl_ok r) by exact (Ht (trie_key f) r Ef).
    destruct Hr as [Hn Hlen].
    destruct (acl_index (r_acl r) target 0) as [i|] eqn:Ei;
      [|destruct (10 <=? List.length (r_acl r)) eqn:E10]; simpl; try exact Ht.
    + intros k r'. rewrite tr_get_set. destruct (String.eqb k (trie_key f)); [|apply Ht].
      intros Hk. injection Hk as <-. unfold acl_ok. cbn [r_acl].
      rewrite map_set_nth, set_nth_length. cbn [acl_user].
      rewrite <- (map_nth acl_user (r_acl r) (mk_acl "" 0)). cbn [acl_user].
      rewrite set_nth_same. auto.
    + apply Nat.leb_gt in E10.
      intros k r'. rewrite tr_get_set. destruct (String.eqb k (trie_key f)); [|apply Ht].
      intros Hk. injection Hk as <-. unfold acl_ok. cbn [r_acl].
      rewrite map_app, length_app. cbn [map List.length acl_user]. split; [|lia].
      apply nodup_snoc; [exact Hn|]. unfold trunc. rewrite (substring_0_all 63 target Hl).
      exact (acl_index_none _ _ _ Ei).
  - unfold search_remove_permission.
    destruct (find_file_record t f) as [r|] eqn:Ef; [|exact Ht].
    destruct (negb (String.eqb (r_owner r) owner)); [exact Ht|].
    assert (Hr : acl_ok r) by exact (Ht (trie_key f) r Ef).
    destruct Hr as [Hn Hlen].
    destruct (acl_index (r_acl r) target 0) as [i|] eqn:Ei; [|exact Ht]. cbn [snd].
    destruct (acl_index_some _ _ _ _ Ei) as (_ & Hi & _). rewrite Nat.sub_0_r in Hi.
    intros k r'. rewrite tr_get_set. destruct (String.eqb k (trie_key f)); [|apply Ht].
    intros Hk. injection Hk as <-. unfold acl_ok. cbn [r_acl].
    split; [|rewrite length_swap_remove; lia].
    rewrite map_removelast, map_set_nth, acl_last_user.
    apply (nodup_count string_dec (map acl_user (r_acl r))); [exact Hn|]. intros x.
    pose proof (swap_remove_count string_dec (map acl_user (r_acl r)) i x ""
                  ltac:(rewrite length_map; exact Hi)). lia.
Qed.

(** Under [trie_acl_ok], after a successful remove of a user other than
    the owner, that user fails the permission check on the file at
    every level. *)
Theorem remove_then_check (t t' : trie) (f owner target : string) (p : Z) :
  trie_acl_ok t ->
  search_remove_permission t f owner target = (0%Z, t') ->
  owner <> target ->
  search_check_permission t' f target p = 0%Z.
Proof.
  intros Ht. unfold search_remove_permission.
  destruct (find_file_record t f) as [r|] eqn:Ef; [|discriminate].
  destruct (String.eqb_spec (r_owner r) owner) as [Ho|]; cbn [negb]; [|discriminate].
  assert (Hr : acl_ok r) by exact (Ht (trie_key f) r Ef).
  destruct Hr as [Hn _].
  destruct (acl_index (r_acl r) target 0) as [i|] eqn:Ei.
  - intros H Hne. injection H as <-.
    unfold search_check_permission, find_file_record.
    rewrite tr_get_set, String.eqb_refl. cbn [r_owner r_acl]. rewrite Ho.
    destruct (String.eqb_spec owner target); [contradiction|].
    rewrite acl_absent_denied; [reflexivity|].
    destruct (acl_index_some _ _ _ _ Ei) as (_ & Hi & Hu). rewrite Nat.sub_0_r in Hi, Hu.
    intros Hin. apply (count_occ_In string_dec) in Hin.
    rewrite map_removelast, map_set_nth, acl_last_user in Hin.
    pose proof (swap_remove_count string_dec (map acl_user (r_acl r)) i target ""
                  ltac:(rewrite length_map; exact Hi)) as Hc.
    assert (Hu' : nth i (map acl_user (r_acl r)) "" = target)
      by (rewrite <- Hu; exact (map_nth acl_user (r_acl r) (mk_acl "" 0) i)).
    rewrite Hu' in Hc. destruct (string_dec target target); [|contradiction].
    pose proof (proj1 (NoDup_count_occ string_dec _) Hn target). lia.
  - intros H Hne. injection H as <-.
    unfold search_check_permission. rewrite Ef, Ho.
    destruct (String.eqb_spec owner target); [contradiction|].
    rewrite acl_absent_denied; [reflexivity|]. exact (acl_index_none _ _ _ Ei).
Qed.

End XPermissions.

(* ================================================================= *)
(** ** The name server: storage servers, users and folders *)

Module XRegistry.
Import CStr StringFacts NS NSMore NSProofs XNSFacts.

(** [search_purge_by_ss] does nothing for an index outside [0, 10).
    Inside, no record of that server is left, every record of another
    server stays, and, the cache satisfying [cache_wf], no valid cache
    entry names a purged record. *)
Theorem purge_outcome (st : ns_state) (ss : Z) :
  ((ss < 0 \/ 10 <= ss)%Z -> search_purge_by_ss st ss = st) /\
  ((0 <= ss < 10)%Z ->
   (forall k r, tr_get (files (search_purge_by_ss st ss)) k = Some r -> r_ss r <> ss) /\
   (forall k r, tr_get (files st) k = Some r -> r_ss r <> ss ->
      tr_get (files (search_purge_by_ss st ss)) k = Some r) /\
   (cache_wf (cache st) -> forall k r, tr_get (files st) k = Some r -> r_ss r = ss ->
      in_cache (cache (search_purge_by_ss st ss)) (r_filename r) = false)).
Proof.
  split.
  - intros H. unfold search_purge_by_ss.
    destruct H as [H|H].
    + rewrite (proj2 (Z.ltb_lt _ _) H). reflexivity.
    + rewrite (proj2 (Z.leb_le _ _) H), orb_true_r. reflexivity.
  - intros H. unfold search_purge_by_ss. rewrite (in_range_index ss H). cbn [files cache].
    split; [|split].
    + intros k r. apply tr_get_filter_dead.
    + intros k r. apply tr_get_filter_live.
    + intros Hw k r Hk Hs. apply fold_invalidate_absent; [exact Hw|]. left.
      apply in_map_iff. exists (k, r). split; [reflexivity|].
      apply filter_In. split; [apply tr_get_in; exact Hk|]. apply Z.eqb_eq. exact Hs.
Qed.

(** [remove_storage_server(fd)]: when no active slot among the 10 has
    socket [fd], nothing changes. Otherwise the first such slot [i] is
    no longer returned by [get_ss_by_index], the other slots are
    unchanged, and the files of server [i] are purged from the trie
    while the others stay. *)
Theorem remove_storage_server_spec (reg : list ss_info) (st : ns_state) (fd : Z) :
  ((forall j, j < 10 -> slot_active reg j = false \/ ss_fd (nth j reg inactive_slot) <> fd) ->
   remove_storage_server reg st fd = (reg, st)) /\
  (forall i, i < 10 -> slot_active reg i = true -> ss_fd (nth i reg inactive_slot) = fd ->
   (forall j, j < i -> slot_active reg j = false \/ ss_fd (nth j reg inactive_slot) <> fd) ->
   get_ss_by_index (fst (remove_storage_server reg st fd)) (Z.of_nat i) = None /\
   (forall j, j <> i ->
      nth j (fst (remove_storage_server reg st fd)) inactive_slot = nth j reg inactive_slot) /\
   (forall k r, tr_get (files (snd (remove_storage_server reg st fd))) k = Some r ->
      r_ss r <> Z.of_nat i) /\
   (forall k r, tr_get (files st) k = Some r -> r_ss r <> Z.of_nat i ->
      tr_get (files (snd (remove_storage_server reg st fd))) k = Some r)).
Proof.
  split.
  - intros Hall. unfold remove_storage_server.
    destruct (first_slot _ (firstn 10 reg) 0) as [i|] eqn:Ef; [|reflexivity].
    exfalso. destruct (first_slot_some _ _ _ _ inactive_slot Ef) as (_ & Hi & Hp & _).
    rewrite Nat.sub_0_r in Hi, Hp. rewrite length_firstn in Hi.
    rewrite nth_firstn_lt in Hp by lia. apply andb_prop in Hp. destruct Hp as [Hp1 Hp2].
    destruct (Hall i ltac:(lia)) as [Ha|Hfd].
    + unfold slot_active in Ha. congruence.
    + apply Z.eqb_eq in Hp2. contradiction.
  - intros i Hi Ha Hfd Hbefore. pose proof (slot_active_length _ _ Ha) as Hlen.
    assert (Ef : first_slot (fun s => ss_active s && (ss_fd s =? fd)%Z) (firstn 10 reg) 0 = Some i).
    { destruct (first_slot _ (firstn 10 reg) 0) as [i0|] eqn:Ef.
      - destruct (first_slot_some _ _ _ _ inactive_slot Ef) as (_ & Hi0 & Hp & Hmin).
        rewrite Nat.sub_0_r in Hi0, Hp, Hmin. rewrite length_firstn in Hi0.
        rewrite nth_firstn_lt in Hp by lia.
        destruct (Nat.lt_total i0 i) as [Hlt|[Heq|Hgt]].
        + exfalso. apply andb_prop in Hp. destruct Hp as [Hp1 Hp2].
          destruct (Hbefore i0 Hlt) as [Hx|Hx].
          * unfold slot_active in Hx. congruence.
          * apply Z.eqb_eq in Hp2. contradiction.
        + subst. reflexivity.
        + exfalso. specialize (Hmin i Hgt). rewrite nth_firstn_lt in Hmin by lia.
          unfold slot_active in Ha. rewrite Ha, Hfd, Z.eqb_refl in Hmin. discriminate.
      - exfalso. pose proof (first_slot_none _ _ _ inactive_slot Ef i) as Hn.
        rewrite length_firstn in Hn. specialize (Hn ltac:(lia)).
        rewrite nth_firstn_lt in Hn by lia.
        unfold slot_active in Ha. rewrite Ha, Hfd, Z.eqb_refl in Hn. discriminate. }
    unfold remove_storage_server. rewrite Ef. cbn [fst snd].
    assert (Hr : (0 <= Z.of_nat i < 10)%Z) by lia.
    split; [|split; [|split]].
    + unfold get_ss_by_index. rewrite (in_range_index _ Hr), Nat2Z.id.
      unfold slot_active. rewrite nth_set_nth_eq by exact Hlen. reflexivity.
    + intros j Hj. apply nth_set_nth_neq. exact Hj.
    + intros k r. unfold search_purge_by_ss. rewrite (in_range_index _ Hr). cbn [files].
      apply tr_get_filter_dead.
    + intros k r. unfold search_purge_by_ss. rewrite (in_range_index _ Hr). cbn [files].
      apply tr_get_filter_live.
Qed.

(** Round robin: [get_ss_for_new_file] from [next_ss_index] returns the
    first active slot met going up from it modulo 10, and moves
    [next_ss_index] just past it; with no active slot it returns none
    and keeps [next_ss_index]. *)
Theorem round_robin (reg : list ss_info) (next : nat) :
  match get_ss_for_new_file reg next with
  | (Some i, next') =>
      slot_active reg i = true /\ next' = (i + 1) mod 10 /\
      exists j, j < 10 /\ i = (next + j) mod 10 /\
        forall k, k < j -> slot_active reg ((next + k) mod 10) = false
  | (None, next') => next' = next /\ forall i, i < 10 -> slot_active reg i = false
  end.
Proof.
  unfold get_ss_for_new_file, find_next_active_ss.
  destruct (scan_active reg next 0 10) as [idx|] eqn:E.
  - destruct (scan_active_some _ _ _ _ _ E) as (j & Hj & -> & Ha & Hb).
    split; [exact Ha|]. split; [reflexivity|].
    exists j. split; [lia|]. split; [reflexivity|]. intros k Hk. apply Hb. lia.
  - split; [reflexivity|]. intros i Hi. destruct (mod10_cover next i Hi) as (j & Hj & <-).
    apply (scan_active_none _ _ _ _ E). lia.
Qed.

(** [register_storage_server] on the 10 slots: a bad or missing payload
    gives -1 and changes nothing. With a payload carrying address [ip]
    (a C string of at most 63 bytes) and port [port]: -1 and no change
    when all slots are active; otherwise the first inactive slot [i] now
    holds the new server, active, as [get_ss_by_index i] shows, the other
    slots are unchanged, and the result is [i] when the ACK is sent, -1
    when it cannot be, the slot staying taken. *)
Theorem register_storage_server_spec (reg : list ss_info) (fd : Z) (ip : string) (port : Z)
    (ack : bool) :
  List.length reg = 10 ->
  String.length ip < 64 ->
  register_storage_server reg fd None ack = ((-1)%Z, reg)
  /\ match register_storage_server reg fd (Some (ip, port)) ack with
     | (r, reg') =>
         (r = (-1)%Z /\ reg' = reg /\ forall i, i < 10 -> slot_active reg i = true) \/
         (exists i, i < 10 /\ slot_active reg i = false /\
            (forall j, j < i -> slot_active reg j = true) /\
            r = (if ack then Z.of_nat i else (-1)%Z) /\
            get_ss_by_index reg' (Z.of_nat i) = Some (mk_ssinfo fd ip port true) /\
            forall j, j <> i -> nth j reg' inactive_slot = nth j reg inactive_slot)
     end.
Proof.
  intros Hl _. split; [reflexivity|]. unfold register_storage_server.
  destruct (first_slot _ (firstn 10 reg) 0) as [i|] eqn:Ef.
  - right. destruct (first_slot_some _ _ _ _ inactive_slot Ef) as (_ & Hi & Hp & Hmin).
    rewrite Nat.sub_0_r in Hi, Hp, Hmin. rewrite length_firstn, Hl in Hi. cbn in Hi.
    rewrite nth_firstn_lt in Hp by lia.
    assert (Hr : (0 <= Z.of_nat i < 10)%Z) by lia.
    exists i. split; [lia|].
    split; [unfold slot_active; cbv beta in Hp; apply negb_true_iff in Hp; exact Hp|].
    split; [|split; [reflexivity|split]].
    + intros j Hj. specialize (Hmin j Hj). rewrite nth_firstn_lt in Hmin by lia.
      unfold slot_active. cbv beta in Hmin. apply negb_false_iff in Hmin. exact Hmin.
    + unfold get_ss_by_index. rewrite (in_range_index _ Hr), Nat2Z.id.
      unfold slot_active. rewrite nth_set_nth_eq by lia. reflexivity.
    + intros j Hj. apply nth_set_nth_neq. exact Hj.
  - left. split; [reflexivity|]. split; [reflexivity|]. intros i Hi.
    pose proof (first_slot_none _ _ _ inactive_slot Ef i) as Hn.
    rewrite length_firstn, Hl in Hn. specialize (Hn ltac:(cbn; lia)).
    rewrite nth_firstn_lt in Hn by lia. unfold slot_active. cbv beta in Hn. apply negb_false_iff in Hn. exact Hn.
Qed.
End XRegistry.

Module XUsersFolders.
Import CStr StringFacts NS NSMore NSProofs XNSFacts.

Lemma existsb_name_false (us : users) (u : string) :
  existsb (fun v => String.eqb v u) us = false -> ~ In u us.
Proof.
  intros H Hin. assert (existsb (fun v => String.eqb v u) us = true) as Hx; [|congruence].
  apply existsb_exists. exists u. rewrite String.eqb_refl. auto.
Qed.

(** [user_manager_register] and [user_manager_deregister] keep
    [users_ok] (for a name of at most 63 bytes at registration). A name
    registered while fewer than 50 users are active is then active;
    after deregistration it is not, and every other name is active
    exactly when it was before. *)
Theorem users_ok_kept (us : users) (u : string) :
  users_ok us ->
  (String.length u <= 63 -> users_ok (user_manager_register us u)) /\
  (String.length u <= 63 -> List.length us < 50 -> In u (user_manager_register us u)) /\
  users_ok (user_manager_deregister us u) /\
  ~ In u (user_manager_deregister us u) /\
  (forall v, v <> u -> (In v (user_manager_deregister us u) <-> In v us)).
Proof.
  intros Hok. destruct Hok as (Hn & Hf & Hl).
  split; [|split; [|split; [|split]]].
  - intros Hu. unfold user_manager_register.
    destruct (50 <=? List.length us) eqn:E50; [split; auto|].
    destruct (existsb (fun v => String.eqb v u) us) eqn:Ex; [split; auto|].
    apply Nat.leb_gt in E50. unfold trunc. rewrite (substring_0_all 63 u Hu).
    split; [|split].
    + apply nodup_snoc; [exact Hn|]. apply existsb_name_false. exact Ex.
    + apply Forall_app. split; [exact Hf|]. constructor; auto.
    + rewrite length_app. cbn. lia.
  - intros Hu H50. unfold user_manager_register.
    destruct (Nat.leb_spec 50 (List.length us)); [lia|].
    destruct (existsb (fun v => String.eqb v u) us) eqn:Ex.
    + apply existsb_exists in Ex. destruct Ex as [v [Hv He]].
      apply String.eqb_eq in He. subst v. exact Hv.
    + unfold trunc. rewrite (substring_0_all 63 u Hu). apply in_or_app. right. left. auto.
  - unfold user_manager_deregister.
    destruct (user_index us u 0) as [i|] eqn:Ei; [|split; auto].
    destruct (user_index_some _ _ _ _ Ei) as (_ & Hi & _). rewrite Nat.sub_0_r in Hi.
    assert (Hlast : String.length (nth (List.length us - 1) us "") <= 63).
    { rewrite Forall_forall in Hf. apply Hf. apply nth_In. lia. }
    unfold trunc. rewrite (substring_0_all 63 _ Hlast).
    assert (Hc : forall x, count_occ string_dec
                 (removelast (Undo.set_nth us i (nth (List.length us - 1) us ""))) x
                 <= count_occ string_dec us x).
    { intros x. pose proof (swap_remove_count string_dec us i x "" Hi). lia. }
    split; [|split].
    + exact (nodup_count string_dec us _ Hn Hc).
    + rewrite Forall_forall in *. intros x Hx. apply Hf.
      apply (count_occ_In string_dec) in Hx. apply (count_occ_In string_dec).
      specialize (Hc x). lia.
    + rewrite length_swap_remove. lia.
  - unfold user_manager_deregister.
    destruct (user_index us u 0) as [i|] eqn:Ei; [|exact (user_index_none _ _ _ Ei)].
    destruct (user_index_some _ _ _ _ Ei) as (_ & Hi & Hu). rewrite Nat.sub_0_r in Hi, Hu.
    assert (Hlast : String.length (nth (List.length us - 1) us "") <= 63).
    { rewrite Forall_forall in Hf. apply Hf. apply nth_In. lia. }
    unfold trunc. rewrite (substring_0_all 63 _ Hlast).
    intros Hin. apply (count_occ_In string_dec) in Hin.
    pose proof (swap_remove_count string_dec us i u "" Hi) as Hc.
    rewrite Hu in Hc. destruct (string_dec u u); [|contradiction].
    pose proof (proj1 (NoDup_count_occ string_dec us) Hn u). lia.
  - intros v Hv. unfold user_manager_deregister.
    destruct (user_index us u 0) as [i|] eqn:Ei; [|reflexivity].
    destruct (user_index_some _ _ _ _ Ei) as (_ & Hi & Hu). rewrite Nat.sub_0_r in Hi, Hu.
    assert (Hlast : String.length (nth (List.length us - 1) us "") <= 63).
    { rewrite Forall_forall in Hf. apply Hf. apply nth_In. lia. }
    unfold trunc. rewrite (substring_0_all 63 _ Hlast).
    pose proof (swap_remove_count string_dec us i v "" Hi) as Hc.
    rewrite Hu in Hc. destruct (string_dec u v) as [->|_]; [contradiction|].
    rewrite !(count_occ_In string_dec). lia.
Qed.

(** [search_add_folder] refuses (-1, registry unchanged) a name already
    registered and a full registry of 1024 folders. A new name of 1 to
    255 bytes is appended, after which [search_find_folder] gives its
    index (the former number of folders), and the other names keep
    their index. *)
Theorem folder_add_find (reg : registry) (name owner : string) :
  (search_find_folder reg name <> (-1)%Z -> search_add_folder reg name owner = ((-1)%Z, reg)) /\
  (1024 <= List.length reg -> search_add_folder reg name owner = ((-1)%Z, reg)) /\
  (0 < String.length name <= 255 -> search_find_folder reg name = (-1)%Z ->
   List.length reg < 1024 ->
   search_add_folder reg name owner = (0%Z, reg ++ [(name, trunc 63 owner)]) /\
   search_find_folder (reg ++ [(name, trunc 63 owner)]) name = Z.of_nat (List.length reg) /\
   (forall g, g <> name ->
      search_find_folder (reg ++ [(name, trunc 63 owner)]) g = search_find_folder reg g)).
Proof.
  split; [|split].
  - intros H. unfold search_add_folder.
    destruct (String.length name =? 0); [reflexivity|].
    destruct (existsb (fun e => String.eqb (fst e) name) reg) eqn:Ex; [reflexivity|].
    exfalso. apply H. unfold search_find_folder.
    rewrite (proj2 (folder_index_existsb reg name 0) Ex). reflexivity.
  - intros H. unfold search_add_folder.
    destruct (String.length name =? 0); [reflexivity|].
    destruct (existsb (fun e => String.eqb (fst e) name) reg); [reflexivity|].
    rewrite (proj2 (Nat.leb_le _ _) H). reflexivity.
  - intros Hn Hf Hl. unfold search_find_folder in Hf.
    destruct (folder_index reg name 0) as [i|] eqn:Ei; [lia|].
    split; [|split].
    + unfold search_add_folder.
      destruct (Nat.eqb_spec (String.length name) 0); [lia|].
      rewrite (proj1 (folder_index_existsb reg name 0) Ei).
      destruct (Nat.leb_spec 1024 (List.length reg)); [lia|].
      unfold trunc. rewrite (substring_0_all 255 name (proj2 Hn)). reflexivity.
    + unfold search_find_folder. rewrite folder_index_app, Ei, String.eqb_refl. reflexivity.
    + intros g Hg. unfold search_find_folder. rewrite folder_index_app.
      destruct (folder_index reg g 0); [reflexivity|].
      destruct (String.eqb_spec name g); [congruence|reflexivity].
Qed.

(** [search_set_file_folder] on a stored file whose name is ASCII
    without NUL up to its end: a caller other than the owner gets -2 and
    nothing changes; for the owner the server index is returned, the
    record then shows the new folder (empty allowed) with the rest of
    the record unchanged, and the other files are untouched.  The stored
    owner name is shorter than 63 bytes and the folder shorter than 255,
    so that the owner field compared by [strcmp] and the folder written
    by [strncpy] are terminated. *)
Theorem set_folder_then_find (t : trie) (f folder owner : string) (r : file_record) :
  all_chars valid_char (cstr f) = true ->
  find_file_record t f = Some r ->
  String.length (r_owner r) < 63 ->
  String.length folder < 255 ->
  (r_owner r <> owner -> search_set_file_folder t f folder owner = ((-2)%Z, t)) /\
  (r_owner r = owner ->
   fst (search_set_file_folder t f folder owner) = r_ss r /\
   find_file_record (snd (search_set_file_folder t f folder owner)) f =
     Some (mk_record (r_filename r) (r_owner r) (r_ss r) folder (r_acl r)) /\
   (forall g, trie_key g <> trie_key f ->
      find_file_record (snd (search_set_file_folder t f folder owner)) g = find_file_record t g)).
Proof.
  intros Ha Hf _ Hl. assert (Hl' : String.length folder <= 255) by lia.
  clear Hl. rename Hl' into Hl.
  assert (Hk : trie_key f = cstr f) by (unfold trie_key; apply filter_chars_all; exact Ha).
  unfold find_file_record in *. rewrite Hk in *.
  unfold search_set_file_folder. rewrite Ha. cbn [negb]. rewrite Hf.
  split.
  - intros Hne. destruct (String.eqb_spec (r_owner r) owner); [contradiction|reflexivity].
  - intros <-. rewrite String.eqb_refl. cbn [negb fst snd].
    assert (Hfo : (if 0 <? String.length folder then trunc 255 folder else "") = folder).
    { destruct (Nat.ltb_spec 0 (String.length folder)).
      - unfold trunc. apply substring_0_all. exact Hl.
      - destruct folder; [reflexivity|cbn in *; lia]. }
    rewrite Hfo. split; [reflexivity|]. split.
    + rewrite tr_get_set, String.eqb_refl. reflexivity.
    + intros g Hg. rewrite tr_get_set.
      destruct (String.eqb_spec (trie_key g) (cstr f)); [contradiction|reflexivity].
Qed.

(** [search_rebuild_add_file] from a storage server's manifest never
    replaces a record held by another storage server. When the node is
    free or held by the same server, the file is then found on that
    server with the manifest's name, owner, folder and ACL, and the other
    files are untouched.  For this the manifest's name and folder are
    shorter than 255 bytes, its owner and ACL user names shorter than
    63, and its ACL has at most 10 entries, so that every [strncpy] into
    the malloc'd record is terminated and the ACL copy stays in its
    array. *)
Theorem rebuild_conflict (t : trie) (ss : Z) (p : file_payload) (g : string) :
  (forall r, find_file_record t (p_filename p) = Some r -> r_ss r <> ss ->
   search_rebuild_add_file t ss p = t) /\
  ((forall r, find_file_record t (p_filename p) = Some r -> r_ss r = ss) ->
   String.length (p_filename p) < 255 -> String.length (p_owner p) < 63 ->
   String.length (p_folder p) < 255 ->
   Forall (fun e => String.length (acl_user e) < 63) (p_acl p) ->
   List.length (p_acl p) <= 10 ->
   find_file_record (search_rebuild_add_file t ss p) (p_filename p)
     = Some (mk_record (p_filename p) (p_owner p) ss (p_folder p) (p_acl p)) /\
   (trie_key g <> trie_key (p_filename p) ->
      find_file_record (search_rebuild_add_file t ss p) g = find_file_record t g)).
Proof.
  unfold find_file_record. split.
  - intros r Hr Hs. unfold search_rebuild_add_file. cbv zeta. rewrite Hr.
    destruct (Z.eqb_spec (r_ss r) ss); [contradiction|reflexivity].
  - intros H Hn Ho Hd Ha _.
    assert (Hfresh :
      mk_record (trunc 255 (p_filename p)) (trunc 63 (p_owner p)) ss
        (if String.eqb (p_folder p) "" then "" else trunc 255 (p_folder p))
        (map (fun e => mk_acl (trunc 63 (acl_user e)) (acl_perm e)) (p_acl p))
      = mk_record (p_filename p) (p_owner p) ss (p_folder p) (p_acl p)).
    { unfold trunc. rewrite (substring_0_all 255 (p_filename p) ltac:(lia)),
        (substring_0_all 63 (p_owner p) ltac:(lia)).
      f_equal.
      - destruct (String.eqb_spec (p_folder p) ""); [congruence|].
        apply substring_0_all. lia.
      - induction Ha as [|[u q] l Hu _ IH]; [reflexivity|].
        cbn [map acl_user acl_perm] in *. rewrite IH, (substring_0_all 63 u ltac:(lia)).
        reflexivity. }
    unfold search_rebuild_add_file. cbv zeta. rewrite Hfresh.
    destruct (tr_get t (trie_key (p_filename p))) as [r|] eqn:Ek;
      [rewrite (H r eq_refl), Z.eqb_refl|].
    all: split; [rewrite tr_get_set, String.eqb_refl; reflexivity|].
    all: intros Hg; rewrite tr_get_set;
         destruct (String.eqb_spec (trie_key g) (trie_key (p_filename p))); [contradiction|reflexivity].
Qed.

End XUsersFolders.

(* ================================================================= *)
(** ** Witnesses: each theorem above with hypotheses, at a concrete input *)

Module XStorage_witness.
Import CStr Store Checkpoint CheckpointOps Undo WriteEngine Handler Session
  XCheckpoint XUndo XLocks XWords.



(** A tag making [<file>_<tag>.checkpoint] longer than 255 bytes: the
    checkpoint cannot be created and CHECKPOINT answers ERR_500. *)
Lemma checkpoint_cmd_outcomes_name_too_long :
  let tag := String.concat "" (repeat "t" 250) in
  creatable ("doc.txt" +s+ "_" +s+ tag +s+ ".checkpoint") = false
  /\ checkpoint_cmd (mk_ss [(file_path "doc.txt", "v1.")] []) "doc.txt" tag "alice" 5
     = (mk_ss [(file_path "doc.txt", "v1.")] [], "ERR_500 Failed to create checkpoint").
Proof.
  intros tag. split; vm_compute; reflexivity.
Qed.

(** The same, then [bob] reverts [doc.txt] to [t1] at second 9: the
    file holds [v1.] again and [v2.] is saved as its backup. *)
Lemma checkpoint_then_revert_witness :
  let m := [(file_path "doc.txt", "v1.")] in
  let m1 := snd (create_checkpoint m "doc.txt" "t1" "alice" 5) in
  let m2 := fs_set m1 (file_path "doc.txt") "v2." in
  snd (revert_cmd (mk_ss m2 []) "doc.txt" "t1" "bob" 9) = "OK_200 REVERT COMPLETED" /\
  fs_get (disk (fst (revert_cmd (mk_ss m2 []) "doc.txt" "t1" "bob" 9))) (file_path "doc.txt")
  = Some "v1." /\
  fs_get (disk (fst (revert_cmd (mk_ss m2 []) "doc.txt" "t1" "bob" 9)))
    (version_path "doc.txt_9.bak") = Some "v2.".
Proof.
  intros m m1 m2.
  destruct (checkpoint_then_revert m m1 m2 [] "doc.txt" "t1" "alice" "bob" 5 9 "v1." "v2."
              ltac:(vm_compute; reflexivity) ltac:(vm_compute; reflexivity)
              ltac:(vm_compute; reflexivity) ltac:(vm_compute; reflexivity)
              ltac:(vm_compute; reflexivity) ltac:(vm_compute; reflexivity))
    as (A & _ & B & C & _).
  split; [exact A|]. split; [rewrite B; vm_compute; reflexivity|].
  exact (C ltac:(vm_compute; lia)).
Defined.


(** Connection 7 holds the lock on sentence 1 of [doc.txt] and sends
    ETIRW: the commit answers WRITE COMPLETED and the lock is gone. *)
Lemma etirw_releases_witness :
  one_lock_per_connection [mk_lock "doc.txt" 1 7] /\
  exists st', line_step (mk_ss [(file_path "doc.txt", "Hello world.")] [mk_lock "doc.txt" 1 7])
                7 "alice" 5 "ETIRW" = Some (st', "OK_200 WRITE COMPLETED")
    /\ get_client_write_info (locks st') 7 = None.
Proof.
  assert (H : one_lock_per_connection [mk_lock "doc.txt" 1 7]).
  { intros fd. unfold locks_of. cbn [filter lk_fd]. destruct (7 =? fd); cbn [List.length]; lia. }
  split; [exact H|].
  destruct (etirw_releases (mk_ss [(file_path "doc.txt", "Hello world.")] [mk_lock "doc.txt" 1 7])
              7 "alice" 5 "ETIRW" "doc.txt" 1 H eq_refl eq_refl
              ltac:(intros sw Hsw; vm_compute in Hsw; discriminate)) as (st' & A & B & _).
  exists st'. split; [exact A|exact B].
Defined.

(** Connection 1 takes sentence 1 of [doc.txt]; connection 2 asking for
    it is refused. *)
Lemma write_lock_exclusive_witness :
  let st := mk_ss [(file_path "doc.txt", "Hello world.")] [] in
  let st1 := fst (write_cmd st 1 "doc.txt" 1) in
  write_cmd st 1 "doc.txt" 1 = (st1, "OK_200 WRITE MODE ENABLED") /\
  write_cmd st1 2 "doc.txt" 1
  = (st1, "ERR_409 This sentence is currently being edited by another user").
Proof.
  intros st st1. assert (H : write_cmd st 1 "doc.txt" 1 = (st1, "OK_200 WRITE MODE ENABLED"))
    by (vm_compute; reflexivity).
  split; [exact H|]. exact (write_lock_exclusive st st1 1 2 "doc.txt" 1 H ltac:(lia)).
Defined.

(** WRITE of sentence 1 of an existing [doc.txt] by connection 1. *)
Lemma write_first_sentence_witness :
  let st := mk_ss [(file_path "doc.txt", "Hello world.")] [] in
  fs_get (disk st) (file_path "doc.txt") = Some "Hello world." /\
  (write_cmd st 1 "doc.txt" 1
   = (mk_ss (disk st) (add_sentence_lock (locks st) "doc.txt" 1 1), "OK_200 WRITE MODE ENABLED")
   \/ write_cmd st 1 "doc.txt" 1
      = (st, "ERR_409 This sentence is currently being edited by another user")).
Proof.
  intros st. assert (H : fs_get (disk st) (file_path "doc.txt") = Some "Hello world.")
    by (vm_compute; reflexivity).
  split; [exact H|].
  exact (write_first_sentence st 1 "doc.txt" "Hello world." H ltac:(cbn; lia)
           ltac:(vm_compute; reflexivity)).
Defined.

(** The words [Hello], [big] and [world.] joined, then tokenized. *)
Lemma tokenize_join_witness :
  Forall (fun w => w <> "" /\ NS.all_chars (fun c => negb (is_ws c)) w = true)
    ["Hello"; "big"; "world."] /\
  tokenize (join ["Hello"; "big"; "world."]) = ["Hello"; "big"; "world."].
Proof.
  assert (H : Forall (fun w => w <> "" /\ NS.all_chars (fun c => negb (is_ws c)) w = true)
                ["Hello"; "big"; "world."]).
  { repeat constructor; discriminate. }
  split; [exact H|]. exact (tokenize_join _ H ltac:(vm_compute; reflexivity) ltac:(cbn; lia)
           ltac:(vm_compute; lia)).
Defined.

End XStorage_witness.

Module XNameServer_witness.
Import CStr NS NSMore NSScenarios XNSScenarios XNSFacts
  XNameServer XPermissions XRegistry XUsersFolders.

Lemma cache_wf_empty : cache_wf empty_cache.
Proof.
  split; [vm_compute; constructor|].
  apply Forall_forall. intros e He. apply repeat_spec in He. subst e. discriminate.
Qed.

(** Adding [doc.txt] for [alice] to the empty trie: the lookup of
    [doc.txt] finds the new record. *)
Lemma add_then_find_witness :
  find_file_record doc_owned "doc.txt" = Some (mk_record "doc.txt" "alice" 0 "" []).
Proof.
  exact (add_then_find [] "doc.txt" 0 "alice" "doc.txt" ltac:(cbn; lia) ltac:(cbn; lia)).
Defined.

Lemma cache_wf_doc_cached : cache_wf (cache doc_cached).
Proof.
  split.
  - vm_compute. constructor; [intros []|constructor].
  - vm_compute. repeat constructor; intros Hv; discriminate.
Qed.

Lemma trie_acl_ok_doc_owned : trie_acl_ok doc_owned.
Proof. apply trie_acl_ok_forall. vm_compute. repeat constructor. Qed.

Lemma trie_acl_ok_doc_bob : trie_acl_ok doc_bob.
Proof.
  apply trie_acl_ok_forall. vm_compute. constructor; [|constructor].
  split; [constructor; [intros []|constructor]|cbn; lia].
Qed.

(** [alice]'s cached [doc.txt] is deleted by [alice]; a lookup at
    second 9 answers -1. *)
Lemma delete_then_find_witness :
  snd (handle_delete_request doc_cached "doc.txt" "alice") = "ACK" /\
  snd (search_find_file (fst (handle_delete_request doc_cached "doc.txt" "alice")) "doc.txt" 9)
  = (-1)%Z.
Proof.
  assert (H : snd (handle_delete_request doc_cached "doc.txt" "alice") = "ACK")
    by (vm_compute; reflexivity).
  split; [exact H|].
  exact (proj2 (delete_then_find doc_cached "doc.txt" "alice" 9 cache_wf_doc_cached H)).
Defined.

(** From the empty cache, the lookup of [doc.txt] leaves a cache
    satisfying [cache_wf]. *)
Lemma cache_wf_kept_witness :
  cache_wf empty_cache /\
  cache_wf (cache (fst (search_find_file (mk_ns doc_owned empty_cache) "doc.txt" 5))).
Proof.
  split; [exact cache_wf_empty|].
  destruct (cache_wf_kept (mk_ns doc_owned empty_cache) "doc.txt" "alice" 5 0 cache_wf_empty)
    as [A _].
  exact (A ltac:(cbn; lia)).
Defined.

(** [alice] grants [bob] permission 2 on [doc.txt]; [bob] then passes
    the check for permission 1. *)
Lemma grant_then_check_witness :
  search_grant_permission doc_owned "doc.txt" "alice" "bob" 2 = (0%Z, doc_bob) /\
  search_check_permission doc_bob "doc.txt" "bob" 1 = 1%Z.
Proof.
  assert (H : search_grant_permission doc_owned "doc.txt" "alice" "bob" 2 = (0%Z, doc_bob))
    by (vm_compute; reflexivity).
  split; [exact H|].
  exact (grant_then_check doc_owned doc_bob "doc.txt" "alice" "bob" 2 1 H
           ltac:(cbn; lia) ltac:(cbn; lia) ltac:(lia)).
Defined.

(** Grant to [bob] and remove of [bob] from [doc_owned] keep
    [trie_acl_ok]. *)
Lemma acl_ok_kept_witness :
  trie_acl_ok doc_owned /\
  trie_acl_ok (snd (search_grant_permission doc_owned "doc.txt" "alice" "bob" 2)) /\
  trie_acl_ok (snd (search_remove_permission doc_owned "doc.txt" "alice" "bob")).
Proof.
  destruct (acl_ok_kept doc_owned "doc.txt" "alice" "bob" 2 trie_acl_ok_doc_owned) as [A B].
  split; [exact trie_acl_ok_doc_owned|]. split; [exact (A ltac:(cbn; lia))|exact B].
Defined.

(** [alice] removes [bob] from [doc.txt] after granting them 2; [bob]
    then fails the check for permission 1. *)
Lemma remove_then_check_witness :
  let t' := snd (search_remove_permission doc_bob "doc.txt" "alice" "bob") in
  trie_acl_ok doc_bob /\
  search_remove_permission doc_bob "doc.txt" "alice" "bob" = (0%Z, t') /\
  search_check_permission t' "doc.txt" "bob" 1 = 0%Z.
Proof.
  intros t'.
  assert (H : search_remove_permission doc_bob "doc.txt" "alice" "bob" = (0%Z, t'))
    by (vm_compute; reflexivity).
  split; [exact trie_acl_ok_doc_bob|]. split; [exact H|].
  exact (remove_then_check doc_bob t' "doc.txt" "alice" "bob" 1 trie_acl_ok_doc_bob H
           ltac:(discriminate)).
Defined.

(** A first storage server registers in the 10 inactive slots; its ACK
    is sent. *)
Lemma register_storage_server_spec_witness :
  List.length init_registry = 10 /\ String.length "10.0.0.1" < 64 /\
  register_storage_server init_registry 4 None true = ((-1)%Z, init_registry)
  /\ match register_storage_server init_registry 4 (Some ("10.0.0.1", 9000%Z)) true with
     | (r, reg') =>
         (r = (-1)%Z /\ reg' = init_registry /\
          forall i, i < 10 -> slot_active init_registry i = true) \/
         (exists i, i < 10 /\ slot_active init_registry i = false /\
            (forall j, j < i -> slot_active init_registry j = true) /\
            r = (if true then Z.of_nat i else (-1)%Z) /\
            get_ss_by_index reg' (Z.of_nat i) = Some (mk_ssinfo 4 "10.0.0.1" 9000 true) /\
            forall j, j <> i -> nth j reg' inactive_slot = nth j init_registry inactive_slot)
     end.
Proof.
  split; [reflexivity|]. split; [cbn; lia|].
  exact (register_storage_server_spec init_registry 4 "10.0.0.1" 9000 true eq_refl
           ltac:(cbn; lia)).
Defined.

(** [alice] and [bob] are active; [bob] registers again, then
    deregisters. *)
Lemma users_ok_kept_witness :
  users_ok ["alice"; "bob"] /\
  In "bob" (user_manager_register ["alice"; "bob"] "bob") /\
  ~ In "bob" (user_manager_deregister ["alice"; "bob"] "bob") /\
  (In "alice" (user_manager_deregister ["alice"; "bob"] "bob") <-> In "alice" ["alice"; "bob"]).
Proof.
  assert (H : users_ok ["alice"; "bob"]).
  { split; [|split].
    - constructor; [intros [H|[]]; discriminate|constructor; [intros []|constructor]].
    - repeat constructor; cbn; lia.
    - cbn. lia. }
  destruct (users_ok_kept ["alice"; "bob"] "bob" H) as (_ & A & _ & B & C).
  split; [exact H|]. split; [exact (A ltac:(cbn; lia) ltac:(cbn; lia))|].
  split; [exact B|]. apply C. discriminate.
Defined.

(** [alice] files [doc.txt] into folder [docs]. *)
Lemma set_folder_then_find_witness :
  all_chars valid_char (cstr "doc.txt") = true /\
  find_file_record doc_owned "doc.txt" = Some (mk_record "doc.txt" "alice" 0 "" []) /\
  find_file_record (snd (search_set_file_folder doc_owned "doc.txt" "docs" "alice")) "doc.txt"
  = Some (mk_record "doc.txt" "alice" 0 "docs" []).
Proof.
  assert (H1 : all_chars valid_char (cstr "doc.txt") = true) by (vm_compute; reflexivity).
  assert (H2 : find_file_record doc_owned "doc.txt" = Some (mk_record "doc.txt" "alice" 0 "" []))
    by (vm_compute; reflexivity).
  split; [exact H1|]. split; [exact H2|].
  destruct (set_folder_then_find doc_owned "doc.txt" "docs" "alice" _ H1 H2
              ltac:(cbn; lia) ltac:(cbn; lia)) as [_ B].
  exact (proj1 (proj2 (B eq_refl))).
Defined.

(** Storage server 1 reports [notes.txt] of [bob] in folder [work],
    shared with [carol] at level 1, to the empty trie: the file is found
    with exactly these fields. *)
Lemma rebuild_conflict_witness :
  find_file_record
    (search_rebuild_add_file [] 1 (mk_payload "notes.txt" "bob" [mk_acl "carol" 1] "work"))
    "notes.txt"
  = Some (mk_record "notes.txt" "bob" 1 "work" [mk_acl "carol" 1]).
Proof.
  destruct (rebuild_conflict [] 1 (mk_payload "notes.txt" "bob" [mk_acl "carol" 1] "work")
              "notes.txt") as [_ B].
  exact (proj1 (B ltac:(intros r Hr; vm_compute in Hr; discriminate)
                  ltac:(cbn; lia) ltac:(cbn; lia) ltac:(cbn; lia)
                  ltac:(repeat constructor; cbn; lia) ltac:(cbn; lia))).
Defined.

End XNameServer_witness.
